(** * Ranking agent: analyzer and searcher

    A shallow embedding of [src/analyzer.js] (class [RankingAnalyzer]),
    [src/searcher.js] (class [GoogleSearcher]), the batch driver
    [src/main.js] and the routes [POST /search] and [GET /api/rankings] of
    [server.js], and the properties of their operations.

    Conventions of the embedding.
    - JavaScript numbers that the code only uses as integers (ranks, array
      indices, page numbers, millisecond instants) are [Z].
    - A record's [timestamp] is the instant it denotes, in milliseconds since
      the epoch: [new Date().toISOString()] writes it and [new Date(ts)] in
      the comparators reads it back.
    - [async] functions are run to completion one after the other; a rejected
      promise is a thrown exception.
    - What lies outside the source (the file system, the clock, the browser
      driven through puppeteer) is an explicit environment that tells how each
      external call ends. *)

From Stdlib Require Import String Ascii ZArith List Bool Lia Permutation Sorted.
From Stdlib Require Import DecimalString.
Import ListNotations.
Open Scope string_scope.
Open Scope Z_scope.

(* ------------------------------------------------------------------------- *)
(** ** Exceptions, outcomes and the state-and-exception monad *)

(** A thrown JavaScript [Error]; only its [message] is ever read. *)
Inductive exn := Err (msg : string).

Definition message (e : exn) : string := let 'Err m := e in m.

Inductive outcome (A : Type) : Type :=
| Returned (a : A)
| Thrown (e : exn).
Arguments Returned {A} a.
Arguments Thrown {A} e.

Definition M (S A : Type) : Type := S -> outcome A * S.

Definition ret {S A} (a : A) : M S A := fun s => (Returned a, s).

Definition throw {S A} (e : exn) : M S A := fun s => (Thrown e, s).

Definition bind {S A B} (c : M S A) (k : A -> M S B) : M S B :=
  fun s => match c s with
           | (Returned a, s') => k a s'
           | (Thrown e, s') => (Thrown e, s')
           end.

Notation "x <- c ;; k" := (bind c (fun x => k))
  (at level 61, c at next level, right associativity).
Notation "c ;; k" := (bind c (fun _ => k))
  (at level 61, right associativity).

(** [try { body } catch (error) { handler error }] *)
Definition try_catch {S A} (body : M S A) (handler : exn -> M S A) : M S A :=
  fun s => match body s with
           | (Returned a, s') => (Returned a, s')
           | (Thrown e, s') => handler e s'
           end.

(** [try { body } finally { final }]: [final] always runs; when it throws, its
    exception replaces the outcome of [body]. *)
Definition try_finally {S A} (body : M S A) (final : M S unit) : M S A :=
  fun s => match body s with
           | (r, s') => match final s' with
                        | (Returned _, s'') => (r, s'')
                        | (Thrown e, s'') => (Thrown e, s'')
                        end
           end.

(** Lifting the way an external call ends into the monad. *)
Definition await {S A} (o : outcome A) : M S A := fun s => (o, s).

(* ------------------------------------------------------------------------- *)
(** ** JavaScript primitives used by the code *)

Module Js.

(** Truthiness of a value that is [null] or a number: [null] and [0] are
    falsy. *)
Definition truthy (v : option Z) : bool :=
  match v with
  | None => false
  | Some n => negb (n =? 0)
  end.

(** [needle] occurs in [s] at position 0. *)
Fixpoint starts_with (s needle : string) {struct needle} : bool :=
  match needle with
  | EmptyString => true
  | String c needle' =>
      match s with
      | EmptyString => false
      | String d s' => Ascii.eqb c d && starts_with s' needle'
      end
  end.

(** [String.prototype.includes]: [needle] occurs somewhere in [s]. *)
Fixpoint includes (s needle : string) : bool :=
  starts_with s needle ||
  match s with
  | EmptyString => false
  | String _ s' => includes s' needle
  end.

(** [`${n}`] for an integer number. *)
Definition string_of_number (n : Z) : string :=
  NilZero.string_of_int (Z.to_int n).

(** [`${v}`] for a value that is [null] or a string. *)
Definition string_of_nullable (v : option string) : string :=
  match v with
  | None => "null"
  | Some s => s
  end.

(** [v || d] for a value that is [undefined] or a string: the empty string
    is falsy. *)
Definition or_string (v : option string) (d : string) : string :=
  match v with
  | None => d
  | Some EmptyString => d
  | Some s => s
  end.

(** [`${v}`] for a value that is [null] or a number. *)
Definition string_of_nullable_number (v : option Z) : string :=
  match v with
  | None => "null"
  | Some n => string_of_number n
  end.

(** [ToNumber] on a value that is [null] or a number, as applied by [<],
    [>], [Math.min] and [Math.max]. *)
Definition to_number (v : option Z) : Z :=
  match v with
  | None => 0
  | Some n => n
  end.

Definition lt (a b : option Z) : bool := to_number a <? to_number b.
Definition gt (a b : option Z) : bool := to_number a >? to_number b.

(** [Math.min(x, ...xs)] and [Math.max(x, ...xs)] *)
Definition math_min (x : Z) (xs : list Z) : Z := fold_left Z.min xs x.
Definition math_max (x : Z) (xs : list Z) : Z := fold_left Z.max xs x.

(** The double quote and the line feed, as one-character strings. *)
Definition dquote : string := String "034"%char EmptyString.
Definition lf : string := String "010"%char EmptyString.

Section Sort.
Variable A : Type.
(** The comparator passed to [Array.prototype.sort]: negative when the
    first argument goes first. *)
Variable cmp : A -> A -> Z.

Fixpoint insert (x : A) (l : list A) : list A :=
  match l with
  | [] => [x]
  | y :: l' => if cmp x y <=? 0 then x :: y :: l' else y :: insert x l'
  end.

(** [Array.prototype.sort] is a stable sort; for the comparators of this
    program (differences of instants) every stable sort returns the same
    array, here computed by insertion. *)
Definition sort (l : list A) : list A := fold_right insert [] l.
End Sort.
Arguments insert {A} cmp x l.
Arguments sort {A} cmp l.

(** Property names every object literal [{}] inherits from
    [Object.prototype]; reading one of them from an object that has no own
    property of that name yields the inherited (truthy) value. *)
Definition inherited_names : list string :=
  [ "constructor"; "__defineGetter__"; "__defineSetter__"; "hasOwnProperty";
    "__lookupGetter__"; "__lookupSetter__"; "isPrototypeOf";
    "propertyIsEnumerable"; "toString"; "valueOf"; "__proto__";
    "toLocaleString" ].

Definition inherited (k : string) : bool :=
  existsb (String.eqb k) inherited_names.

(** An object used as a dictionary: its own properties in insertion order. *)
Definition object (V : Type) : Type := list (string * V).

(** What [o[k]] evaluates to. *)
Inductive lookup_result (V : Type) : Type :=
| Own (v : V)
| Inherited
| Undefined.
Arguments Own {V} v.
Arguments Inherited {V}.
Arguments Undefined {V}.

Fixpoint own {V} (o : object V) (k : string) : option V :=
  match o with
  | [] => None
  | (k', v) :: o' => if String.eqb k k' then Some v else own o' k
  end.

Definition get {V} (o : object V) (k : string) : lookup_result V :=
  match own o k with
  | Some v => Own v
  | None => if inherited k then Inherited else Undefined
  end.

(** [o[k] = v] for a key that is not inherited: an existing own property
    keeps its place, a new one goes last. *)
Fixpoint set {V} (o : object V) (k : string) (v : V) : object V :=
  match o with
  | [] => [(k, v)]
  | (k', v') :: o' =>
      if String.eqb k k' then (k', v) :: o' else (k', v') :: set o' k v
  end.

(** Own property names that are array indices (canonical decimal strings
    of the integers 0 .. 2^32-2) are enumerated first, in ascending numeric
    order; the other names follow in insertion order. *)
Definition digit_value (c : ascii) : option Z :=
  let n := Z.of_nat (nat_of_ascii c) in
  if (48 <=? n) && (n <=? 57) then Some (n - 48) else None.

Fixpoint digits_value (s : string) (acc : Z) : option Z :=
  match s with
  | EmptyString => Some acc
  | String c s' =>
      match digit_value c with
      | Some d => digits_value s' (10 * acc + d)
      | None => None
      end
  end.

Definition array_index (k : string) : option Z :=
  match k with
  | EmptyString => None
  | _ =>
      match digits_value k 0 with
      | Some n =>
          if (n <=? 4294967294) && String.eqb (string_of_number n) k
          then Some n else None
      | None => None
      end
  end.

Definition is_array_index (k : string) : bool :=
  match array_index k with Some _ => true | None => false end.

Definition index_of {V} (kv : string * V) : Z :=
  match array_index (fst kv) with Some n => n | None => 0 end.

(** [Object.entries(o)] *)
Definition entries {V} (o : object V) : list (string * V) :=
  sort (fun a b => index_of a - index_of b)
       (filter (fun kv => is_array_index (fst kv)) o)
  ++ filter (fun kv => negb (is_array_index (fst kv))) o.

(** [Object.keys(o)] *)
Definition keys {V} (o : object V) : list string := map fst (entries o).

End Js.

(* ------------------------------------------------------------------------- *)
(** ** Data model *)

(** One scraped search result.  [item_snippet = None] is a missing
    ([undefined]) snippet. *)
Record SearchResultItem := {
  item_title : string;
  item_url : string;
  item_snippet : option string
}.

(** One element of the JSON array in [data/rankings.json]; [None] is [null]. *)
Record RankingRecord := {
  keyword : string;
  rank : option Z;
  title : option string;
  url : option string;
  timestamp : Z;
  snippet : option string
}.

Inductive level := Info | Warn | Error.

Definition LogEntry : Type := level * string.

(* ------------------------------------------------------------------------- *)
(** ** The analyzer ([RankingAnalyzer]) *)

Module Analyzer.

(** [this.targetDomain] *)
Definition targetDomain : string := "webreinvent.com".

(** What [this.resultsFile] holds: nothing that can be read, text that
    [JSON.parse] rejects, or a JSON array of ranking records. *)
Inductive StoreFile :=
| Unreadable (why : string)
| Corrupt (why : string)
| Rankings (rs : list RankingRecord).

(** Everything the analyzer acts on. *)
Record World := {
  resultsFile : StoreFile;
  logged : list LogEntry;
  console : list string;
  csvFiles : list (string * list RankingRecord)
}.

(** How the external calls of one analyzer call end. *)
Record Env := {
  now : Z;                                  (* the clock, in milliseconds *)
  writeFile_fault : option (exn * StoreFile);
               (* [fs.writeFile] fails, leaving the file in that state *)
  writeRecords_fault : option exn;          (* [csvWriter.writeRecords] fails *)
  csvPath : string                          (* [`${csvWriter.csvPath}`] *)
}.

Definition log (l : level) (msg : string) : M World unit :=
  fun w => (Returned tt,
            {| resultsFile := resultsFile w;
               logged := (logged w ++ [(l, msg)])%list;
               console := console w;
               csvFiles := csvFiles w |}).

Definition console_log (line : string) : M World unit :=
  fun w => (Returned tt,
            {| resultsFile := resultsFile w;
               logged := logged w;
               console := (console w ++ [line])%list;
               csvFiles := csvFiles w |}).

(** [JSON.parse(await fs.readFile(this.resultsFile, 'utf8'))] *)
Definition readRankings : M World (list RankingRecord) :=
  fun w => match resultsFile w with
           | Unreadable why => (Thrown (Err why), w)
           | Corrupt why => (Thrown (Err why), w)
           | Rankings rs => (Returned rs, w)
           end.

Definition put_file (f : StoreFile) (w : World) : World :=
  {| resultsFile := f;
     logged := logged w;
     console := console w;
     csvFiles := csvFiles w |}.

(** [await fs.writeFile(this.resultsFile, JSON.stringify(rankings, null, 2))] *)
Definition writeRankings (env : Env) (rankings : list RankingRecord)
  : M World unit :=
  fun w => match writeFile_fault env with
           | None => (Returned tt, put_file (Rankings rankings) w)
           | Some (e, remains) => (Thrown e, put_file remains w)
           end.

(** The loop that looks for the target domain: [i] is the loop index, the
    result is the pair of [ranking] and [matchedResult] after the loop. *)
Fixpoint findRanking (i : Z) (searchResults : list SearchResultItem)
  : option Z * option SearchResultItem :=
  match searchResults with
  | [] => (None, None)
  | item :: rest =>
      if Js.includes (item_url item) targetDomain
      then (Some (i + 1), Some item)
      else findRanking (i + 1) rest
  end.

Definition saveResults (env : Env) (kw : string)
           (searchResults : list SearchResultItem) : M World unit :=
  try_catch
    (let timestamp_ := now env in
     let '(ranking, matchedResult) := findRanking 0 searchResults in
     rankings <- readRankings ;;
     rankings' <-
       (if Js.truthy ranking then
          match matchedResult with
          | Some m =>
              let pushed :=
                (rankings ++ [ {| keyword := kw;
                                  rank := ranking;
                                  title := Some (item_title m);
                                  url := Some (item_url m);
                                  timestamp := timestamp_;
                                  snippet := Some (Js.or_string
                                                     (item_snippet m) "") |} ])%list in
              log Info ("Found " ++ targetDomain ++ " at position "
                        ++ Js.string_of_nullable_number ranking
                        ++ " for " ++ Js.dquote ++ kw ++ Js.dquote) ;;
              ret pushed
          | None =>
              throw (Err "Cannot read properties of null (reading 'title')")
          end
        else
          log Warn (targetDomain ++ " not found in results for "
                    ++ Js.dquote ++ kw ++ Js.dquote) ;;
          ret (rankings ++ [ {| keyword := kw;
                                rank := None;
                                title := None;
                                url := None;
                                timestamp := timestamp_;
                                snippet := None |} ])%list) ;;
     writeRankings env rankings')
    (fun error =>
       log Error ("Failed to save results: " ++ message error) ;;
       throw error).

(** *** [generateReport] *)

(** The callback of [rankings.reduce(..., {})] that groups by keyword. *)
Definition groupStep (acc : Js.object (list RankingRecord))
           (curr : RankingRecord)
  : outcome (Js.object (list RankingRecord)) :=
  match Js.get acc (keyword curr) with
  | Js.Undefined => Returned (Js.set acc (keyword curr) [curr])
  | Js.Own group => Returned (Js.set acc (keyword curr) (group ++ [curr])%list)
  | Js.Inherited => Thrown (Err "acc[curr.keyword].push is not a function")
  end.

Fixpoint reduce {A B} (f : B -> A -> outcome B) (l : list A) (acc : B)
  : outcome B :=
  match l with
  | [] => Returned acc
  | x :: l' =>
      match f acc x with
      | Returned acc' => reduce f l' acc'
      | Thrown e => Thrown e
      end
  end.

Definition byKeyword (rankings : list RankingRecord)
  : outcome (Js.object (list RankingRecord)) :=
  reduce groupStep rankings [].

(** The comparator [(a, b) => new Date(b.timestamp) - new Date(a.timestamp)] *)
Definition byDateDesc (a b : RankingRecord) : Z := timestamp b - timestamp a.

Inductive Trend := Improved | Dropped | NoChange | NotApplicable.

Definition trend_text (t : Trend) : string :=
  match t with
  | Improved => "🔼 Improved"
  | Dropped => "🔽 Dropped"
  | NoChange => "➡️ No change"
  | NotApplicable => "N/A"
  end.

(** The conditional expression bound to [trend]. *)
Definition trend (latest previous : RankingRecord) : Trend :=
  if Js.truthy (rank latest) && Js.truthy (rank previous) then
    if Js.lt (rank latest) (rank previous) then Improved
    else if Js.gt (rank latest) (rank previous) then Dropped
    else NoChange
  else NotApplicable.

(** The body of the [forEach] over [Object.entries(byKeyword)]. *)
Definition reportGroup (kw : string) (results : list RankingRecord)
  : M World unit :=
  console_log ("Keyword: " ++ kw) ;;
  console_log "-------------------" ;;
  let results := Js.sort byDateDesc results in
  match nth_error results 0 with
  | None => throw (Err "Cannot read properties of undefined (reading 'rank')")
  | Some latest =>
      console_log ("Latest Rank: "
                   ++ (if Js.truthy (rank latest)
                       then Js.string_of_nullable_number (rank latest)
                       else "Not Found")) ;;
      (if Js.truthy (rank latest) then
         console_log ("Title: " ++ Js.string_of_nullable (title latest)) ;;
         console_log ("URL: " ++ Js.string_of_nullable (url latest))
       else ret tt) ;;
      (if 1 <? Z.of_nat (length results) then
         match nth_error results 1 with
         | None =>
             throw (Err "Cannot read properties of undefined (reading 'rank')")
         | Some previous =>
             console_log ("Trend: " ++ trend_text (trend latest previous))
         end
       else ret tt) ;;
      console_log Js.lf
  end.

Fixpoint forEach {S A} (f : A -> M S unit) (l : list A) : M S unit :=
  match l with
  | [] => ret tt
  | x :: l' => f x ;; forEach f l'
  end.

Definition csvName (env : Env) : string :=
  "rankings_" ++ Js.string_of_number (now env) ++ ".csv".

(** [await csvWriter.writeRecords(rankings)], for the writer created on
    [csvName env] in the data directory. *)
Definition writeRecords (env : Env) (rankings : list RankingRecord)
  : M World unit :=
  fun w => match writeRecords_fault env with
           | Some e => (Thrown e, w)
           | None =>
               (Returned tt,
                {| resultsFile := resultsFile w;
                   logged := logged w;
                   console := console w;
                   csvFiles := (csvFiles w ++ [(csvName env, rankings)])%list |})
           end.

Definition generateReport (env : Env) (format : string) : M World unit :=
  try_catch
    (rankings <- readRankings ;;
     if Z.of_nat (length rankings) =? 0 then
       log Warn "No ranking data available"
     else
       groups <- await (byKeyword rankings) ;;
       if String.eqb format "csv" then
         writeRecords env rankings ;;
         log Info ("CSV report generated at " ++ csvPath env)
       else
         console_log (Js.lf ++ "Ranking Report:") ;;
         console_log ("==============" ++ Js.lf) ;;
         forEach (fun kv => reportGroup (fst kv) (snd kv)) (Js.entries groups))
    (fun error =>
       log Error ("Failed to generate report: " ++ message error) ;;
       throw error).

(** *** [getKeywordSummary] *)

(** An element of a summary's [history]: [{rank, date}]. *)
Record HistoryEntry := {
  h_rank : option Z;
  date : Z
}.

Record Summary := {
  current : option Z;
  best : option Z;
  worst : option Z;
  history : list HistoryEntry
}.

Definition emptySummary : Summary :=
  {| current := None; best := None; worst := None; history := [] |}.

Definition pushHistory (data : Summary) (h : HistoryEntry) : Summary :=
  {| current := current data;
     best := best data;
     worst := worst data;
     history := (history data ++ [h])%list |}.

(** The callback of [rankings.forEach] that fills the histories. *)
Definition collectStep (summary : Js.object Summary) (entry : RankingRecord)
  : outcome (Js.object Summary) :=
  let summary :=
    match Js.get summary (keyword entry) with
    | Js.Undefined => Js.set summary (keyword entry) emptySummary
    | _ => summary
    end in
  if Js.truthy (rank entry) then
    match Js.get summary (keyword entry) with
    | Js.Own data =>
        Returned (Js.set summary (keyword entry)
                         (pushHistory data {| h_rank := rank entry;
                                              date := timestamp entry |}))
    | _ =>
        Thrown (Err "Cannot read properties of undefined (reading 'push')")
    end
  else Returned summary.

(** The comparator [(a, b) => new Date(b.date) - new Date(a.date)] *)
Definition byHistoryDateDesc (a b : HistoryEntry) : Z := date b - date a.

(** The body of the [forEach] over [Object.keys(summary)], which updates
    the summary object of one keyword in place. *)
Definition statistics (data : Summary) : Summary :=
  if 0 <? Z.of_nat (length (history data)) then
    let sorted := Js.sort byHistoryDateDesc (history data) in
    match map (fun h => Js.to_number (h_rank h)) sorted with
    | [] => data
    | r :: rs =>
        {| current := match nth_error sorted 0 with
                      | Some h => h_rank h
                      | None => None
                      end;
           best := Some (Js.math_min r rs);
           worst := Some (Js.math_max r rs);
           history := sorted |}
    end
  else data.

(** Every own key is visited once and only its own value is updated, so
    the second [forEach] is a map over the own properties. *)
Definition getKeywordSummary : M World (Js.object Summary) :=
  try_catch
    (rankings <- readRankings ;;
     summary <- await (reduce collectStep rankings []) ;;
     ret (map (fun kv => (fst kv, statistics (snd kv))) summary))
    (fun error =>
       log Error ("Failed to get keyword summary: " ++ message error) ;;
       throw error).

(** *** [initialize] *)

(** How the external calls of [initialize] end. *)
Record InitEnv := {
  mkdir : outcome unit;      (* [fs.mkdir(this.dataDir, { recursive: true })] *)
  access : outcome unit;     (* [fs.access(this.resultsFile)] *)
  create : Env               (* the write of [JSON.stringify([])] *)
}.

Definition initialize (ienv : InitEnv) : M World unit :=
  try_catch
    (await (mkdir ienv) ;;
     try_catch
       (await (access ienv))
       (fun _ => writeRankings (create ienv) []))
    (fun error =>
       log Error ("Failed to initialize analyzer: " ++ message error) ;;
       throw error).

End Analyzer.

(* ------------------------------------------------------------------------- *)
(** ** The searcher ([GoogleSearcher]) *)

Module Searcher.

(** A browser or page object handed out by puppeteer. *)
Inductive handle := Handle.

(** The calls made to the outside, in the order they are made. *)
Inductive Event :=
| Launch                                   (* puppeteerExtra.launch *)
| NewPage                                  (* browser.newPage *)
| SetUserAgent                             (* page.setUserAgent *)
| EvaluateOnNewDocument                    (* page.evaluateOnNewDocument *)
| Sleep                                    (* sleep(ms) *)
| Goto (kw : string) (start timeout : Z)   (* page.goto *)
| QueryCaptcha                             (* page.$('form#captcha-form') *)
| WaitForNavigation (timeout : Z)          (* page.waitForNavigation *)
| Extract                                  (* page.evaluate *)
| PageClose                                (* page.close *)
| BrowserClose.                            (* browser.close *)

(** How the external calls of one searcher call end; the per-page ones are
    indexed by [pageNum]. *)
Record Env := {
  launch : outcome unit;
  newPage : outcome unit;
  setUserAgent : outcome unit;
  evaluateOnNewDocument : outcome unit;
  goto : Z -> outcome unit;
  captchaForm : Z -> outcome bool;   (* is [page.$(...)] other than [null] *)
  waitForNavigation : Z -> outcome unit;
  evaluate : Z -> outcome (list SearchResultItem);
  randomDelay : Z -> Z;              (* [Math.floor(Math.random() * 4000)] *)
  pageClose : outcome unit;
  browserClose : outcome unit
}.

(** [this.browser], the locals [results] and [page] of [search], the
    search log and the calls made so far. *)
Record State := {
  browser : option handle;
  results : list SearchResultItem;
  page : option handle;
  logged : list LogEntry;
  calls : list Event
}.

Definition log (l : level) (msg : string) : M State unit :=
  fun s => (Returned tt,
            {| browser := browser s; results := results s; page := page s;
               logged := (logged s ++ [(l, msg)])%list;
               calls := calls s |}).

(** An external call: it is recorded, then ends the way the environment
    says. *)
Definition call {A} (ev : Event) (o : outcome A) : M State A :=
  fun s => (o,
            {| browser := browser s; results := results s; page := page s;
               logged := logged s;
               calls := (calls s ++ [ev])%list |}).

Definition set_browser (b : option handle) : M State unit :=
  fun s => (Returned tt,
            {| browser := b; results := results s; page := page s;
               logged := logged s; calls := calls s |}).

Definition set_results (r : list SearchResultItem) : M State unit :=
  fun s => (Returned tt,
            {| browser := browser s; results := r; page := page s;
               logged := logged s; calls := calls s |}).

Definition set_page (p : option handle) : M State unit :=
  fun s => (Returned tt,
            {| browser := browser s; results := results s; page := p;
               logged := logged s; calls := calls s |}).

Definition get {A} (f : State -> A) : M State A :=
  fun s => (Returned (f s), s).

Definition initialize (env : Env) : M State unit :=
  call Launch (launch env) ;;
  set_browser (Some Handle).

Definition setupPage (env : Env) : M State handle :=
  b <- get browser ;;
  match b with
  | None => throw (Err "Cannot read properties of null (reading 'newPage')")
  | Some _ =>
      call NewPage (newPage env) ;;
      call SetUserAgent (setUserAgent env) ;;
      call EvaluateOnNewDocument (evaluateOnNewDocument env) ;;
      ret Handle
  end.

Section Search.
Variable env : Env.
Variable kw : string.
Variable numPages : Z.

(** The body of the [for] loop over [pageNum]. *)
Definition searchPage (pageNum : Z) : M State unit :=
  let start := pageNum * 10 in
  log Info ("Searching page " ++ Js.string_of_number (pageNum + 1)
            ++ " for: " ++ kw) ;;
  call Sleep (Returned tt) ;;
  call (Goto kw start 30000) (goto env pageNum) ;;
  captcha <- call QueryCaptcha (captchaForm env pageNum) ;;
  (if captcha : bool then
     log Info "CAPTCHA detected - waiting for manual solve..." ;;
     try_catch
       (call (WaitForNavigation 60000) (waitForNavigation env pageNum))
       (fun _ => log Error "Timeout waiting for CAPTCHA solution")
   else ret tt) ;;
  pageResults <- call Extract (evaluate env pageNum) ;;
  r <- get results ;;
  set_results (r ++ pageResults)%list ;;
  log Info ("Found " ++ Js.string_of_number (Z.of_nat (length pageResults))
            ++ " results on page " ++ Js.string_of_number (pageNum + 1)) ;;
  if pageNum <? numPages - 1 then
    let delay := randomDelay env pageNum + 3000 in
    log Info ("Waiting " ++ Js.string_of_number delay
              ++ "ms before next page...") ;;
    call Sleep (Returned tt)
  else ret tt.

(** [for (let pageNum = 0; pageNum < numPages; pageNum++)]: [n] is the
    number of iterations left. *)
Fixpoint searchPages (n : nat) (pageNum : Z) : M State unit :=
  match n with
  | O => ret tt
  | S n' => searchPage pageNum ;; searchPages n' (pageNum + 1)
  end.

Definition search : M State (list SearchResultItem) :=
  set_results [] ;;
  set_page None ;;
  try_finally
    (try_catch
       (b <- get browser ;;
        (match b with
         | None => initialize env
         | Some _ => ret tt
         end) ;;
        p <- setupPage env ;;
        set_page (Some p) ;;
        searchPages (Z.to_nat numPages) 0)
       (fun error => log Error ("Search failed: " ++ message error)))
    (p <- get page ;;
     match p with
     | Some _ => call PageClose (pageClose env)
     | None => ret tt
     end) ;;
  get results.
End Search.

Definition close (env : Env) : M State unit :=
  b <- get browser ;;
  match b with
  | Some _ =>
      call BrowserClose (browserClose env) ;;
      set_browser None
  | None => ret tt
  end.

End Searcher.

(* ------------------------------------------------------------------------- *)
(** ** The process: one analyzer and one searcher *)

Module App.

(** The analyzer's world and the searcher side by side, with what the
    drivers themselves write: [console.error] lines (label and error), the
    server log, and the timers they wait on. *)
Record World := {
  analyzerWorld : Analyzer.World;
  searcherState : Searcher.State;
  stderr : list (string * exn);
  serverLog : list LogEntry;
  timers : list Z
}.

(** A method call on the analyzer. *)
Definition onAnalyzer {A} (m : M Analyzer.World A) : M World A :=
  fun a => let (r, w) := m (analyzerWorld a) in
           (r, {| analyzerWorld := w;
                  searcherState := searcherState a;
                  stderr := stderr a;
                  serverLog := serverLog a;
                  timers := timers a |}).

(** A method call on the searcher. *)
Definition onSearcher {A} (m : M Searcher.State A) : M World A :=
  fun a => let (r, s) := m (searcherState a) in
           (r, {| analyzerWorld := analyzerWorld a;
                  searcherState := s;
                  stderr := stderr a;
                  serverLog := serverLog a;
                  timers := timers a |}).

(** [console.log(line)] *)
Definition console_log (line : string) : M World unit :=
  onAnalyzer (Analyzer.console_log line).

(** [console.error(label, error)] *)
Definition console_error (label : string) (error : exn) : M World unit :=
  fun a => (Returned tt,
            {| analyzerWorld := analyzerWorld a;
               searcherState := searcherState a;
               stderr := (stderr a ++ [(label, error)])%list;
               serverLog := serverLog a;
               timers := timers a |}).

(** [logger.error(msg)] and [logger.info(msg)] of the server. *)
Definition log (l : level) (msg : string) : M World unit :=
  fun a => (Returned tt,
            {| analyzerWorld := analyzerWorld a;
               searcherState := searcherState a;
               stderr := stderr a;
               serverLog := (serverLog a ++ [(l, msg)])%list;
               timers := timers a |}).

(** [await new Promise(resolve => setTimeout(resolve, ms))] *)
Definition sleep (ms : Z) : M World unit :=
  fun a => (Returned tt,
            {| analyzerWorld := analyzerWorld a;
               searcherState := searcherState a;
               stderr := stderr a;
               serverLog := serverLog a;
               timers := (timers a ++ [ms])%list |}).

End App.

(* ------------------------------------------------------------------------- *)
(** ** The batch driver ([src/main.js]) *)

Module Main.

Definition KEYWORDS : list string :=
  [ "Laravel development company";
    "Laravel Development Services Company";
    "Laravel development services";
    "Laravel development company in India";
    "Laravel development company in Delhi" ].

(** How the external calls of one run end; the searches and saves are
    indexed by the position of their keyword. *)
Record Env := {
  initEnv : Analyzer.InitEnv;
  searchEnv : nat -> Searcher.Env;
  saveEnv : nat -> Analyzer.Env;
  consoleReportEnv : Analyzer.Env;
  csvReportEnv : Analyzer.Env;
  closeEnv : Searcher.Env
}.

(** [new GoogleSearcher()]: the searcher starts without a browser. *)
Definition newSearcher : M Searcher.State unit :=
  Searcher.set_browser None.

(** The [for (const keyword of KEYWORDS)] loop; [i] is the position of the
    first keyword of [keywords]. *)
Fixpoint searchAll (env : Env) (i : nat) (keywords : list string)
  : M App.World unit :=
  match keywords with
  | [] => ret tt
  | kw :: rest =>
      App.console_log ("Searching for: " ++ kw) ;;
      results <- App.onSearcher (Searcher.search (searchEnv env i) kw 5) ;;
      App.onAnalyzer (Analyzer.saveResults (saveEnv env i) kw results) ;;
      App.sleep 60000 ;;
      searchAll env (S i) rest
  end.

Definition main (env : Env) : M App.World unit :=
  App.onSearcher newSearcher ;;
  try_finally
    (try_catch
       (App.onAnalyzer (Analyzer.initialize (initEnv env)) ;;
        searchAll env 0 KEYWORDS ;;
        App.console_log (Js.lf ++ "Generating console report...") ;;
        App.onAnalyzer (Analyzer.generateReport (consoleReportEnv env) "console") ;;
        App.console_log (Js.lf ++ "Generating CSV report...") ;;
        App.onAnalyzer (Analyzer.generateReport (csvReportEnv env) "csv"))
       (fun error => App.console_error "Error:" error))
    (App.onSearcher (Searcher.close (closeEnv env))).

End Main.

(* ------------------------------------------------------------------------- *)
(** ** The web server ([server.js]) *)

Module Server.

(** What a route handler sends back. *)
Inductive Response :=
| RenderResults (ranking : RankingRecord)    (* res.render('results', { ranking }) *)
| RenderError (error : string)               (* res.render('error', { error }) *)
| Json (keywordData : Js.object (list RankingRecord))   (* res.json(keywordData) *)
| Status500 (error : string).                (* res.status(500).json({ error }) *)

(** How the external calls of one request end. *)
Record Env := {
  searchEnv : Searcher.Env;
  saveEnv : Analyzer.Env
}.

(** [const rankings = JSON.parse(await fs.readFile(analyzer.resultsFile, 'utf8'))] *)
Definition readRankings : M App.World (list RankingRecord) :=
  App.onAnalyzer Analyzer.readRankings.

(** [rankings.filter(r => r.keyword === keyword).sort(...)[0]] *)
Definition latestRanking (kw : string) (rankings : list RankingRecord)
  : option RankingRecord :=
  nth_error
    (Js.sort (fun a b => timestamp b - timestamp a)
             (filter (fun r => String.eqb (keyword r) kw) rankings))
    0.

(** Truthiness of [req.body.keyword], which is [undefined] or a string. *)
Definition truthy_string (v : option string) : bool :=
  match v with
  | None => false
  | Some EmptyString => false
  | Some _ => true
  end.

(** The handler of [POST /search]; [keyword] is [req.body.keyword]. *)
Definition postSearch (env : Env) (keyword : option string)
  : M App.World Response :=
  try_catch
    (if negb (truthy_string keyword) then
       throw (Err "Keyword is required")
     else
       let kw := match keyword with Some k => k | None => EmptyString end in
       results <- App.onSearcher (Searcher.search (searchEnv env) kw 5) ;;
       App.onAnalyzer (Analyzer.saveResults (saveEnv env) kw results) ;;
       rankings <- readRankings ;;
       match latestRanking kw rankings with
       | None => throw (Err "No ranking data found")
       | Some ranking => ret (RenderResults ranking)
       end)
    (fun error =>
       App.console_error "Search error:" error ;;
       ret (RenderError (Js.or_string (Some (message error))
                                      "An unexpected error occurred"))).

(** The callback of [rankings.forEach] that fills [keywordData] in
    [GET /api/rankings]. *)
Definition groupEntry (keywordData : Js.object (list RankingRecord))
           (entry : RankingRecord)
  : outcome (Js.object (list RankingRecord)) :=
  match Js.get keywordData (keyword entry) with
  | Js.Undefined => Returned (Js.set keywordData (keyword entry) [entry])
  | Js.Own data =>
      Returned (Js.set keywordData (keyword entry) (data ++ [entry])%list)
  | Js.Inherited =>
      Thrown (Err "keywordData[entry.keyword].push is not a function")
  end.

(** The comparator [(a, b) => new Date(a.timestamp) - new Date(b.timestamp)] *)
Definition byDateAsc (a b : RankingRecord) : Z := timestamp a - timestamp b.

(** The handler of [GET /api/rankings].  Every value of [keywordData] is
    sorted in place, so the [forEach] over [Object.values] is a map over the
    own properties. *)
Definition getApiRankings : M App.World Response :=
  try_catch
    (rankings <- readRankings ;;
     keywordData <- await (Analyzer.reduce groupEntry rankings []) ;;
     ret (Json (map (fun kv => (fst kv, Js.sort byDateAsc (snd kv)))
                    keywordData)))
    (fun error =>
       App.log Error ("API error: " ++ message error) ;;
       ret (Status500 (message error))).

End Server.

(* ------------------------------------------------------------------------- *)
(** ** Vocabulary of the specification *)

(** [s] contains [t] as a substring. *)
Definition contains (s t : string) : Prop :=
  exists a b, s = a ++ t ++ b.

(** [m] is the item at index [i] of [l], its url contains the target domain
    and no item before it does. *)
Definition firstMatch (l : list SearchResultItem) (i : nat)
           (m : SearchResultItem) : Prop :=
  nth_error l i = Some m /\
  contains (item_url m) Analyzer.targetDomain /\
  forall j m', (j < i)%nat -> nth_error l j = Some m' ->
               ~ contains (item_url m') Analyzer.targetDomain.

(** No item of [l] has a url that contains the target domain. *)
Definition noMatch (l : list SearchResultItem) : Prop :=
  forall m, In m l -> ~ contains (item_url m) Analyzer.targetDomain.

(** The record written when the target domain is absent from the results. *)
Definition notFoundRecord (kw : string) (t : Z) : RankingRecord :=
  {| keyword := kw; rank := None; title := None; url := None;
     timestamp := t; snippet := None |}.


(** The world after a successful [saveResults] that appended [r] to the
    records [rs] and logged [entry]. *)
Definition saved (w : Analyzer.World) (rs : list RankingRecord)
           (r : RankingRecord) (entry : LogEntry) : Analyzer.World :=
  {| Analyzer.resultsFile := Analyzer.Rankings (rs ++ [r]);
     Analyzer.logged := Analyzer.logged w ++ [entry];
     Analyzer.console := Analyzer.console w;
     Analyzer.csvFiles := Analyzer.csvFiles w |}.

(** The record written when item [m] at index [i] is the first match. *)
Definition foundRecord (kw : string) (t : Z) (i : nat) (m : SearchResultItem)
  : RankingRecord :=
  {| keyword := kw;
     rank := Some (Z.of_nat i + 1);
     title := Some (item_title m);
     url := Some (item_url m);
     timestamp := t;
     snippet := Some (Js.or_string (item_snippet m) "") |}.

(** *** Sample data *)

Definition sampleEnv (t : Z) : Analyzer.Env :=
  {| Analyzer.now := t;
     Analyzer.writeFile_fault := None;
     Analyzer.writeRecords_fault := None;
     Analyzer.csvPath := "undefined" |}.

Definition storeOf (rs : list RankingRecord) : Analyzer.World :=
  {| Analyzer.resultsFile := Analyzer.Rankings rs;
     Analyzer.logged := [];
     Analyzer.console := [];
     Analyzer.csvFiles := [] |}.

Definition itemAt (u : string) (s : option string) : SearchResultItem :=
  {| item_title := "Laravel"; item_url := u; item_snippet := s |}.

Definition sampleResults : list SearchResultItem :=
  [ itemAt "https://example.org/laravel" (Some "first");
    itemAt "https://www.webreinvent.com/laravel" None;
    itemAt "https://webreinvent.com/" (Some "third") ].


(** *** Reports *)

(** Ranks of the data model: null, or a 1-based position. *)
Definition validRanks (rs : list RankingRecord) : Prop :=
  forall r n, In r rs -> rank r = Some n -> 1 <= n.

(** Sorted by timestamp, most recent first. *)
Definition descending (l : list RankingRecord) : Prop :=
  StronglySorted (fun a b => timestamp a >= timestamp b) l.

(** The records of keyword [kw], in store order. *)
Definition recordsOf (kw : string) (rs : list RankingRecord)
  : list RankingRecord :=
  filter (fun r => String.eqb (keyword r) kw) rs.

(** The trend marker as the specification words it, for the latest and the
    previous record. *)
Definition trendMarker (latest previous : RankingRecord) : Analyzer.Trend :=
  match rank latest, rank previous with
  | Some a, Some b =>
      if a <? b then Analyzer.Improved
      else if b <? a then Analyzer.Dropped
      else Analyzer.NoChange
  | _, _ => Analyzer.NotApplicable
  end.

(** The marker claimed for a group sorted most recent first: also 'N/A' when
    the group has fewer than two records. *)
Definition claimedTrend (sorted : list RankingRecord) : Analyzer.Trend :=
  match sorted with
  | latest :: previous :: _ => trendMarker latest previous
  | _ => Analyzer.NotApplicable
  end.

Definition isTrendLine (line : string) : bool := Js.starts_with line "Trend: ".

(** The lines [reportGroup] prints about the latest record. *)
Definition latestLines (latest : RankingRecord) : list string :=
  ("Latest Rank: " ++ (if Js.truthy (rank latest)
                       then Js.string_of_nullable_number (rank latest)
                       else "Not Found"))
  :: (if Js.truthy (rank latest)
      then ["Title: " ++ Js.string_of_nullable (title latest);
            "URL: " ++ Js.string_of_nullable (url latest)]
      else []).

(** The trend line [reportGroup] prints for a group sorted most recent
    first, if any. *)
Definition trendLines (sorted : list RankingRecord) : list string :=
  match sorted with
  | latest :: previous :: _ =>
      ["Trend: " ++ Analyzer.trend_text (Analyzer.trend latest previous)]
  | _ => []
  end.

(** All the lines [reportGroup] prints for a group. *)
Definition groupLines (kw : string) (results : list RankingRecord)
  : list string :=
  match Js.sort Analyzer.byDateDesc results with
  | [] => []
  | latest :: rest =>
      ["Keyword: " ++ kw; "-------------------"]
        ++ latestLines latest
        ++ trendLines (latest :: rest)
        ++ [Js.lf]
  end.

Definition reportHeader : list string :=
  [Js.lf ++ "Ranking Report:"; "==============" ++ Js.lf].

Definition addConsole (w : Analyzer.World) (lines : list string)
  : Analyzer.World :=
  {| Analyzer.resultsFile := Analyzer.resultsFile w;
     Analyzer.logged := Analyzer.logged w;
     Analyzer.console := Analyzer.console w ++ lines;
     Analyzer.csvFiles := Analyzer.csvFiles w |}.

Definition addLog (w : Analyzer.World) (entry : LogEntry) : Analyzer.World :=
  {| Analyzer.resultsFile := Analyzer.resultsFile w;
     Analyzer.logged := Analyzer.logged w ++ [entry];
     Analyzer.console := Analyzer.console w;
     Analyzer.csvFiles := Analyzer.csvFiles w |}.

(** A list as the value of a group: absent when empty. *)
Definition nonEmpty {A : Type} (l : list A) : option (list A) :=
  match l with
  | [] => None
  | _ => Some l
  end.

(** What the grouping object holds after the records [pre]. *)
Definition grouped (pre : list RankingRecord)
         (acc : Js.object (list RankingRecord)) : Prop :=
NoDup (map fst acc) /\
forall kw, Js.own acc kw = nonEmpty (recordsOf kw pre).


(** A record of keyword [kw] ranked [n] at instant [t]. *)
Definition rankedRecord (kw : string) (n t : Z) : RankingRecord :=
  {| keyword := kw; rank := Some n; title := Some "Laravel";
     url := Some "https://www.webreinvent.com/laravel";
     timestamp := t; snippet := Some "" |}.

(** *** Searcher *)

(** A searcher that has not launched a browser yet. *)
Definition idle : Searcher.State :=
  {| Searcher.browser := None;
     Searcher.results := [];
     Searcher.page := None;
     Searcher.logged := [];
     Searcher.calls := [] |}.

(** The state after [close] released the browser of [s]. *)
Definition closed (s : Searcher.State) : Searcher.State :=
  {| Searcher.browser := None;
     Searcher.results := Searcher.results s;
     Searcher.page := Searcher.page s;
     Searcher.logged := Searcher.logged s;
     Searcher.calls := Searcher.calls s ++ [Searcher.BrowserClose] |}.

(** An environment in which every external call succeeds, no CAPTCHA shows
    up and every page yields the items [items]. *)
Definition smooth (items : list SearchResultItem) : Searcher.Env :=
  {| Searcher.launch := Returned tt;
     Searcher.newPage := Returned tt;
     Searcher.setUserAgent := Returned tt;
     Searcher.evaluateOnNewDocument := Returned tt;
     Searcher.goto := fun _ => Returned tt;
     Searcher.captchaForm := fun _ => Returned false;
     Searcher.waitForNavigation := fun _ => Returned tt;
     Searcher.evaluate := fun _ => Returned items;
     Searcher.randomDelay := fun _ => 0;
     Searcher.pageClose := Returned tt;
     Searcher.browserClose := Returned tt |}.

(** The browser goes away during the first navigation: [page.goto] rejects,
    and so does [page.close] on the page of the lost connection. *)
Definition disconnected : Searcher.Env :=
  {| Searcher.launch := Returned tt;
     Searcher.newPage := Returned tt;
     Searcher.setUserAgent := Returned tt;
     Searcher.evaluateOnNewDocument := Returned tt;
     Searcher.goto :=
       fun _ => Thrown (Err "Navigation failed because browser has disconnected!");
     Searcher.captchaForm := fun _ => Returned false;
     Searcher.waitForNavigation := fun _ => Returned tt;
     Searcher.evaluate := fun _ => Returned [];
     Searcher.randomDelay := fun _ => 0;
     Searcher.pageClose := Thrown (Err "Protocol error: Connection closed.");
     Searcher.browserClose := Returned tt |}.

(** The CAPTCHA form shows up on the first page and the wait for a
    navigation times out, after which the page shows the items [items]. *)
Definition captchaTimeout (items : list SearchResultItem) : Searcher.Env :=
  {| Searcher.launch := Returned tt;
     Searcher.newPage := Returned tt;
     Searcher.setUserAgent := Returned tt;
     Searcher.evaluateOnNewDocument := Returned tt;
     Searcher.goto := fun _ => Returned tt;
     Searcher.captchaForm := fun pageNum => Returned (pageNum =? 0);
     Searcher.waitForNavigation :=
       fun _ => Thrown (Err "Navigation timeout of 60000 ms exceeded");
     Searcher.evaluate := fun _ => Returned items;
     Searcher.randomDelay := fun _ => 0;
     Searcher.pageClose := Returned tt;
     Searcher.browserClose := Returned tt |}.

(** *** Keyword summaries *)

(** No record's keyword is a property name inherited from
    [Object.prototype]. *)
Definition ordinaryKeywords (rs : list RankingRecord) : Prop :=
  forall r, In r rs -> Js.inherited (keyword r) = false.

Definition ranked (r : RankingRecord) : bool :=
  match rank r with
  | Some _ => true
  | None => false
  end.

(** The [{rank, date}] entries of the records of [kw] whose rank is not
    null, in store order. *)
Definition historyOf (kw : string) (rs : list RankingRecord)
  : list Analyzer.HistoryEntry :=
  map (fun r => {| Analyzer.h_rank := rank r; Analyzer.date := timestamp r |})
      (filter ranked (recordsOf kw rs)).

(** A summary that has only collected the history [h]. *)
Definition collecting (h : list Analyzer.HistoryEntry) : Analyzer.Summary :=
  {| Analyzer.current := None;
     Analyzer.best := None;
     Analyzer.worst := None;
     Analyzer.history := h |}.

(** What the summary object holds after the records [pre]. *)
Definition collected (pre : list RankingRecord)
           (acc : Js.object Analyzer.Summary) : Prop :=
  NoDup (map fst acc) /\
  forall kw, Js.own acc kw
             = match recordsOf kw pre with
               | [] => None
               | _ => Some (collecting (historyOf kw pre))
               end.

(** History sorted by date, most recent first. *)
Definition recentFirst (h : list Analyzer.HistoryEntry) : Prop :=
  StronglySorted (fun a b => Analyzer.date a >= Analyzer.date b) h.

(** *** Frames *)

(** The computation [m] never changes the results file. *)
Definition keepsStore {A : Type} (m : M Analyzer.World A) : Prop :=
  forall w, Analyzer.resultsFile (snd (m w)) = Analyzer.resultsFile w.

(** The last element of a list, if any. *)
Definition lastOf {A : Type} (l : list A) : option A :=
  match rev l with
  | [] => None
  | x :: _ => Some x
  end.

(** No own property of [o] is named like an inherited one. *)
Definition noInheritedOwn {V : Type} (o : Js.object V) : Prop :=
  forall k, Js.inherited k = true -> Js.own o k = None.


(** A store with three ranked records of one keyword and an unranked record
    of another. *)
Definition sampleStore : list RankingRecord :=
  [ rankedRecord "laravel" 9 1000;
    rankedRecord "laravel" 2 2000;
    notFoundRecord "php" 2500;
    rankedRecord "laravel" 7 3000 ].

(** An environment of [initialize] in which the data directory can be made
    and the results file does not exist yet. *)
Definition freshInstall : Analyzer.InitEnv :=
  {| Analyzer.mkdir := Returned tt;
     Analyzer.access := Thrown (Err "ENOENT: no such file or directory");
     Analyzer.create := sampleEnv 0 |}.

(** A world without a results file. *)
Definition noStore : Analyzer.World :=
  {| Analyzer.resultsFile :=
       Analyzer.Unreadable "ENOENT: no such file or directory";
     Analyzer.logged := [];
     Analyzer.console := [];
     Analyzer.csvFiles := [] |}.

(** *** Searcher: pages and calls *)

(** The page numbers [p], [p + 1], ..., [p + n - 1]. *)
Fixpoint pagesFrom (p : Z) (n : nat) : list Z :=
  match n with
  | O => []
  | S n' => p :: pagesFrom (p + 1) n'
  end.

(** Page [q] loads, shows no CAPTCHA form and yields [items q]. *)
Definition pageLoads (env : Searcher.Env) (items : Z -> list SearchResultItem)
           (q : Z) : Prop :=
  Searcher.goto env q = Returned tt /\
  Searcher.captchaForm env q = Returned false /\
  Searcher.evaluate env q = Returned (items q).

(** Opening a page succeeds: [newPage], [setUserAgent] and
    [evaluateOnNewDocument] all return. *)
Definition pageOpens (env : Searcher.Env) : Prop :=
  Searcher.newPage env = Returned tt /\
  Searcher.setUserAgent env = Returned tt /\
  Searcher.evaluateOnNewDocument env = Returned tt.

(** A call that neither launches nor closes a browser. *)
Definition onPage (ev : Searcher.Event) : Prop :=
  ev <> Searcher.Launch /\ ev <> Searcher.BrowserClose.

(** Run with a browser, the computation [m] keeps [this.browser] and makes
    only calls on the page. *)
Definition keepsBrowser {A : Type} (m : M Searcher.State A) : Prop :=
  forall s,
    Searcher.browser s <> None ->
    Searcher.browser (snd (m s)) = Searcher.browser s /\
    exists evs, Searcher.calls (snd (m s)) = (Searcher.calls s ++ evs)%list /\
                Forall onPage evs.

(** A searcher whose browser is running. *)
Definition running : Searcher.State :=
  {| Searcher.browser := Some Searcher.Handle;
     Searcher.results := [];
     Searcher.page := None;
     Searcher.logged := [];
     Searcher.calls := [] |}.

(** Every page yields one item that names the page number. *)
Definition numbered (q : Z) : list SearchResultItem :=
  [itemAt ("https://example.org/" ++ Js.string_of_number q) (Some "")].

(** Every call succeeds and page [q] yields [numbered q]. *)
Definition numberedPages : Searcher.Env :=
  {| Searcher.launch := Returned tt;
     Searcher.newPage := Returned tt;
     Searcher.setUserAgent := Returned tt;
     Searcher.evaluateOnNewDocument := Returned tt;
     Searcher.goto := fun _ => Returned tt;
     Searcher.captchaForm := fun _ => Returned false;
     Searcher.waitForNavigation := fun _ => Returned tt;
     Searcher.evaluate := fun q => Returned (numbered q);
     Searcher.randomDelay := fun _ => 0;
     Searcher.pageClose := Returned tt;
     Searcher.browserClose := Returned tt |}.

(** As [numberedPages], but the navigation to page [k] fails. *)
Definition failsAt (k : Z) : Searcher.Env :=
  {| Searcher.launch := Returned tt;
     Searcher.newPage := Returned tt;
     Searcher.setUserAgent := Returned tt;
     Searcher.evaluateOnNewDocument := Returned tt;
     Searcher.goto :=
       fun q => if q =? k
                then Thrown (Err "Navigation timeout of 30000 ms exceeded")
                else Returned tt;
     Searcher.captchaForm := fun _ => Returned false;
     Searcher.waitForNavigation := fun _ => Returned tt;
     Searcher.evaluate := fun q => Returned (numbered q);
     Searcher.randomDelay := fun _ => 0;
     Searcher.pageClose := Returned tt;
     Searcher.browserClose := Returned tt |}.

(** The browser process cannot be started. *)
Definition cannotLaunch : Searcher.Env :=
  {| Searcher.launch := Thrown (Err "Failed to launch the browser process!");
     Searcher.newPage := Returned tt;
     Searcher.setUserAgent := Returned tt;
     Searcher.evaluateOnNewDocument := Returned tt;
     Searcher.goto := fun _ => Returned tt;
     Searcher.captchaForm := fun _ => Returned false;
     Searcher.waitForNavigation := fun _ => Returned tt;
     Searcher.evaluate := fun q => Returned (numbered q);
     Searcher.randomDelay := fun _ => 0;
     Searcher.pageClose := Returned tt;
     Searcher.browserClose := Returned tt |}.

(** The page is created but setting its user agent fails. *)
Definition cannotPrepare : Searcher.Env :=
  {| Searcher.launch := Returned tt;
     Searcher.newPage := Returned tt;
     Searcher.setUserAgent := Thrown (Err "Target closed");
     Searcher.evaluateOnNewDocument := Returned tt;
     Searcher.goto := fun _ => Returned tt;
     Searcher.captchaForm := fun _ => Returned false;
     Searcher.waitForNavigation := fun _ => Returned tt;
     Searcher.evaluate := fun q => Returned (numbered q);
     Searcher.randomDelay := fun _ => 0;
     Searcher.pageClose := Returned tt;
     Searcher.browserClose := Returned tt |}.

(** *** The drivers *)

(** The computation [m] of the process never changes the results file. *)
Definition keepsStoreApp {A : Type} (m : M App.World A) : Prop :=
  forall a,
    Analyzer.resultsFile (App.analyzerWorld (snd (m a)))
    = Analyzer.resultsFile (App.analyzerWorld a).

(** A process whose results file holds the records [rs]. *)
Definition processWith (rs : list RankingRecord) : App.World :=
  {| App.analyzerWorld := storeOf rs;
     App.searcherState := idle;
     App.stderr := [];
     App.serverLog := [];
     App.timers := [] |}.

(** A run of the batch driver in which every external call succeeds; the
    search for the keyword at position [i] is made at instant
    [1000 * (i + 1)] and every page yields the items [items]. *)
Definition smoothRun (items : list SearchResultItem) : Main.Env :=
  {| Main.initEnv := {| Analyzer.mkdir := Returned tt;
                        Analyzer.access := Returned tt;
                        Analyzer.create := sampleEnv 0 |};
     Main.searchEnv := fun _ => smooth items;
     Main.saveEnv := fun i => sampleEnv (1000 * (Z.of_nat i + 1));
     Main.consoleReportEnv := sampleEnv 9000;
     Main.csvReportEnv := sampleEnv 9001;
     Main.closeEnv := smooth items |}.

(** A request served while every external call succeeds. *)
Definition smoothRequest (items : list SearchResultItem) (t : Z) : Server.Env :=
  {| Server.searchEnv := smooth items; Server.saveEnv := sampleEnv t |}.

(** Sorted by timestamp, oldest first. *)
Definition ascending (l : list RankingRecord) : Prop :=
  StronglySorted (fun a b => timestamp a <= timestamp b) l.

(** The calls the loop body makes for page [q] when it loads without a
    CAPTCHA form: a delay, the navigation to the results from [10 * q] on,
    the CAPTCHA check, the extraction and, except after the last page, a
    second delay. *)
Definition pageCalls (kw : string) (numPages q : Z) : list Searcher.Event :=
  [Searcher.Sleep; Searcher.Goto kw (q * 10) 30000; Searcher.QueryCaptcha;
   Searcher.Extract]
  ++ (if q <? numPages - 1 then [Searcher.Sleep] else []).

(** A process whose results file cannot be parsed. *)
Definition processWithCorruptStore (why : string) : App.World :=
  {| App.analyzerWorld :=
       {| Analyzer.resultsFile := Analyzer.Corrupt why;
          Analyzer.logged := [];
          Analyzer.console := [];
          Analyzer.csvFiles := [] |};
     App.searcherState := idle;
     App.stderr := [];
     App.serverLog := [];
     App.timers := [] |}.
(* ------------------------------------------------------------------------- *)
(** ** Facts about the primitives *)

Section StringFacts.

Lemma starts_with_true_iff (s t : string) :
  Js.starts_with s t = true <-> exists b, s = t ++ b.
Proof.
  revert s; induction t as [|c t IH]; intros s; simpl.
  - split; [intros _; now exists s | reflexivity].
  - destruct s as [|d s]; simpl.
    + split; [discriminate | intros [b Hb]; discriminate].
    + rewrite andb_true_iff, Ascii.eqb_eq, IH. split.
      * intros [-> [b ->]]. now exists b.
      * intros [b Hb]. injection Hb as -> ->. split; [reflexivity | now exists b].
Qed.

Lemma includes_true_iff (s t : string) :
  Js.includes s t = true <-> contains s t.
Proof.
  unfold contains. induction s as [|c s IH]; simpl.
  - rewrite orb_false_r, starts_with_true_iff. split.
    + intros [b Hb]. exists "", b. exact Hb.
    + intros [a [b Hab]]. destruct a; [now exists b | discriminate].
  - rewrite orb_true_iff, starts_with_true_iff, IH. split.
    + intros [[b Hb] | [a [b Hab]]].
      * exists "", b. exact Hb.
      * exists (String c a), b. simpl. now rewrite Hab.
    + intros [a [b Hab]]. destruct a as [|c' a]; simpl in Hab.
      * left. now exists b.
      * right. exists a, b. congruence.
Qed.

Lemma includes_false_iff (s t : string) :
  Js.includes s t = false <-> ~ contains s t.
Proof.
  rewrite <- includes_true_iff. destruct (Js.includes s t); intuition congruence.
Qed.

End StringFacts.

(* ------------------------------------------------------------------------- *)
(** ** [saveResults] *)

Section SaveResults.
Import Analyzer.

Lemma findRanking_spec (l : list SearchResultItem) :
  forall i0,
    (exists i m, firstMatch l i m /\
                 findRanking i0 l = (Some (i0 + Z.of_nat i + 1), Some m))
    \/ (noMatch l /\ findRanking i0 l = (None, None)).
Proof.
  induction l as [|x l IH]; intros i0; simpl.
  - right. split; [intros m [] | reflexivity].
  - destruct (Js.includes (item_url x) targetDomain) eqn:Hx.
    + left. exists O, x. split.
      * repeat split; [now apply includes_true_iff | intros j m' Hj; lia].
      * f_equal. f_equal. lia.
    + apply includes_false_iff in Hx.
      destruct (IH (i0 + 1)) as [(i & m & (Hn & Hc & Hb) & Hf) | [Hnone Hf]].
      * left. exists (S i), m. split.
        -- repeat split; [exact Hn | exact Hc |].
           intros [|j] m' Hj Hm'; simpl in Hm'.
           ++ now injection Hm' as <-.
           ++ apply (Hb j); [lia | exact Hm'].
        -- rewrite Hf. f_equal. f_equal. lia.
      * right. split; [| exact Hf].
        intros m [<- | Hin]; [exact Hx | now apply Hnone].
Qed.

Lemma firstMatch_not_noMatch l i m : firstMatch l i m -> ~ noMatch l.
Proof.
  intros (Hn & Hc & _) Hnone. apply (Hnone m); [| exact Hc].
  eapply nth_error_In; eauto.
Qed.

Lemma firstMatch_unique l i m i' m' :
  firstMatch l i m -> firstMatch l i' m' -> i = i' /\ m = m'.
Proof.
  intros (Hn & Hc & Hb) (Hn' & Hc' & Hb').
  assert (i = i').
  { destruct (Nat.lt_trichotomy i i') as [Hlt | [Heq | Hgt]]; [| exact Heq |].
    - exfalso. exact (Hb' i m Hlt Hn Hc).
    - exfalso. exact (Hb i' m' Hgt Hn' Hc'). }
  subst i'. split; [reflexivity | congruence].
Qed.

Lemma saveResults_found env kw results w rs i m :
  resultsFile w = Rankings rs ->
  writeFile_fault env = None ->
  firstMatch results i m ->
  saveResults env kw results w
  = (Returned tt,
     saved w rs (foundRecord kw (now env) i m)
           (Info, "Found " ++ targetDomain ++ " at position "
                  ++ Js.string_of_number (Z.of_nat i + 1)
                  ++ " for " ++ Js.dquote ++ kw ++ Js.dquote)).
Proof.
  intros Hfile Hwrite Hfirst.
  destruct (findRanking_spec results 0) as [(i' & m' & Hfirst' & Hf) | [Hnone _]].
  2: { exfalso. exact (firstMatch_not_noMatch _ _ _ Hfirst Hnone). }
  destruct (firstMatch_unique _ _ _ _ _ Hfirst Hfirst') as [<- <-].
  unfold saveResults, try_catch, bind, readRankings, writeRankings.
  rewrite Hf, Hfile. cbn [Js.truthy].
  replace (0 + Z.of_nat i + 1) with (Z.of_nat i + 1) by lia.
  destruct (Z.eqb_spec (Z.of_nat i + 1) 0) as [Hz | _]; [lia |].
  cbn [negb log ret]. rewrite Hwrite. reflexivity.
Qed.

Lemma saveResults_absent env kw results w rs :
  resultsFile w = Rankings rs ->
  writeFile_fault env = None ->
  noMatch results ->
  saveResults env kw results w
  = (Returned tt,
     saved w rs (notFoundRecord kw (now env))
           (Warn, targetDomain ++ " not found in results for "
                  ++ Js.dquote ++ kw ++ Js.dquote)).
Proof.
  intros Hfile Hwrite Hnone.
  destruct (findRanking_spec results 0) as [(i & m & Hfirst & _) | [_ Hf]].
  { exfalso. exact (firstMatch_not_noMatch _ _ _ Hfirst Hnone). }
  unfold saveResults, try_catch, bind, readRankings, writeRankings.
  rewrite Hf, Hfile. cbn [Js.truthy log ret]. rewrite Hwrite. reflexivity.
Qed.

(** [saveResults] returns only when the file held a JSON array and the
    write went through; every other run rethrows. *)
Lemma saveResults_returned env kw results w w' :
  saveResults env kw results w = (Returned tt, w') ->
  exists rs, resultsFile w = Rankings rs /\ writeFile_fault env = None.
Proof.
  unfold saveResults, try_catch, bind, readRankings, writeRankings.
  destruct (findRanking 0 results) as [ranking matched].
  destruct (resultsFile w) as [why | why | rs] eqn:Hfile;
    [cbn; discriminate | cbn; discriminate |].
  intros H. exists rs. split; [reflexivity |].
  destruct (writeFile_fault env) as [[e remains] |]; [| reflexivity].
  exfalso. revert H.
  destruct (Js.truthy ranking); [destruct matched |]; cbn; discriminate.
Qed.

Lemma sampleResults_firstMatch :
  firstMatch sampleResults 1
             (itemAt "https://www.webreinvent.com/laravel" None).
Proof.
  repeat split.
  - apply includes_true_iff. reflexivity.
  - intros [|[|j]] m' Hj Hm'; [| lia | lia].
    injection Hm' as <-. apply includes_false_iff. reflexivity.
Qed.

(** C1: in a call that reaches the store, the appended record has rank
    1 + the index of the first item whose url contains the target domain
    and takes its title and url from that item; the rank is null when no
    url contains the target domain.  One of the two cases always holds. *)
Theorem saveResults_rank_of_first_match env kw results w rs :
  resultsFile w = Rankings rs ->
  writeFile_fault env = None ->
  exists r entry,
    saveResults env kw results w = (Returned tt, saved w rs r entry) /\
    (forall i m, firstMatch results i m ->
                 rank r = Some (1 + Z.of_nat i) /\
                 title r = Some (item_title m) /\
                 url r = Some (item_url m)) /\
    (noMatch results -> rank r = None) /\
    ((exists i m, firstMatch results i m) \/ noMatch results).
Proof.
  intros Hfile Hwrite.
  destruct (findRanking_spec results 0) as [(i & m & Hfirst & _) | [Hnone _]].
  - eexists; eexists.
    split; [exact (saveResults_found _ kw _ _ _ _ _ Hfile Hwrite Hfirst) |].
    split; [| split].
    + intros i' m' Hfirst'.
      destruct (firstMatch_unique _ _ _ _ _ Hfirst Hfirst') as [<- <-].
      unfold foundRecord; cbn [rank title url].
      split; [f_equal; lia | split; reflexivity].
    + intros Hnone. exfalso. exact (firstMatch_not_noMatch _ _ _ Hfirst Hnone).
    + left. now exists i, m.
  - eexists; eexists. split; [exact (saveResults_absent _ kw _ _ _ Hfile Hwrite Hnone) |].
    split; [| split].
    + intros i m Hfirst. exfalso. exact (firstMatch_not_noMatch _ _ _ Hfirst Hnone).
    + reflexivity.
    + now right.
Qed.

Lemma saveResults_rank_of_first_match_witness :
  resultsFile (storeOf []) = Rankings [] /\
  writeFile_fault (sampleEnv 1000) = None /\
  exists r entry,
    saveResults (sampleEnv 1000) "laravel" sampleResults (storeOf [])
    = (Returned tt, saved (storeOf []) [] r entry) /\
    rank r = Some 2 /\
    url r = Some "https://www.webreinvent.com/laravel".
Proof.
  split; [reflexivity | split; [reflexivity |]].
  destruct (saveResults_rank_of_first_match
              (sampleEnv 1000) "laravel" sampleResults (storeOf []) []
              eq_refl eq_refl) as (r & entry & Hrun & Hfound & _).
  exists r, entry. split; [exact Hrun |].
  destruct (Hfound _ _ sampleResults_firstMatch) as (Hr & _ & Hu).
  split; [exact Hr | exact Hu].
Defined.

(** C3: with an empty result list, or any list in which no url contains
    the target domain, a call that reaches the store appends the record
    whose rank, title, url and snippet are null, whose keyword is the given
    one and whose timestamp is the time of the call, and logs the
    'not found' warning. *)
Theorem saveResults_not_found env kw results w rs :
  resultsFile w = Rankings rs ->
  writeFile_fault env = None ->
  results = [] \/ noMatch results ->
  saveResults env kw results w
  = (Returned tt,
     {| resultsFile :=
          Rankings (rs ++ [ {| keyword := kw; rank := None; title := None;
                               url := None; timestamp := now env;
                               snippet := None |} ]);
        logged := logged w ++
                  [(Warn, "webreinvent.com not found in results for "
                          ++ Js.dquote ++ kw ++ Js.dquote)];
        console := console w;
        csvFiles := csvFiles w |}).
Proof.
  intros Hfile Hwrite Hres.
  assert (Hnone : noMatch results).
  { destruct Hres as [-> | H]; [intros m [] | exact H]. }
  exact (saveResults_absent _ kw _ _ _ Hfile Hwrite Hnone).
Qed.

Lemma saveResults_not_found_witness :
  resultsFile (storeOf []) = Rankings [] /\
  writeFile_fault (sampleEnv 1000) = None /\
  saveResults (sampleEnv 1000) "kw" [] (storeOf [])
  = (Returned tt,
     {| resultsFile := Rankings [notFoundRecord "kw" 1000];
        logged := [(Warn, "webreinvent.com not found in results for "
                          ++ Js.dquote ++ "kw" ++ Js.dquote)];
        console := [];
        csvFiles := [] |}).
Proof.
  split; [reflexivity | split; [reflexivity |]].
  exact (saveResults_not_found (sampleEnv 1000) "kw" [] (storeOf []) []
                                eq_refl eq_refl (or_introl eq_refl)).
Defined.

(** C5: a [saveResults] call that returns leaves the records that were in
    the store in place, unchanged and in the same order, and adds exactly
    one record after them. *)
Theorem saveResults_append_only env kw results w w' :
  saveResults env kw results w = (Returned tt, w') ->
  exists rs r,
    resultsFile w = Rankings rs /\
    resultsFile w' = Rankings (rs ++ [r]) /\
    length (rs ++ [r]) = S (length rs) /\
    (forall i, (i < length rs)%nat ->
               nth_error (rs ++ [r]) i = nth_error rs i).
Proof.
  intros Hrun.
  destruct (saveResults_returned _ _ _ _ _ Hrun) as (rs & Hfile & Hwrite).
  assert (exists r entry, w' = saved w rs r entry) as (r & entry & ->).
  { destruct (findRanking_spec results 0) as [(i & m & Hfirst & _) | [Hnone _]].
    - rewrite (saveResults_found _ kw _ _ _ _ _ Hfile Hwrite Hfirst) in Hrun.
      injection Hrun as <-. eauto.
    - rewrite (saveResults_absent _ kw _ _ _ Hfile Hwrite Hnone) in Hrun.
      injection Hrun as <-. eauto. }
  exists rs, r. split; [exact Hfile | split; [reflexivity | split]].
  - rewrite length_app. simpl. lia.
  - intros i Hi. now apply nth_error_app1.
Qed.

Lemma saveResults_append_only_witness :
  exists w' r,
    saveResults (sampleEnv 2000) "laravel" sampleResults
                (storeOf [notFoundRecord "laravel" 1000])
    = (Returned tt, w') /\
    resultsFile w' = Rankings ([notFoundRecord "laravel" 1000] ++ [r]).
Proof.
  eexists. 
  destruct (saveResults_append_only
              (sampleEnv 2000) "laravel" sampleResults
              (storeOf [notFoundRecord "laravel" 1000]) _ eq_refl)
    as (rs & r & Hfile & Hfile' & _).
  injection Hfile as <-.
  exists r. split; [reflexivity | exact Hfile'].
Defined.

(** C10: the record appended by a [saveResults] call that returns has a
    non-null snippet whenever its rank is non-null: it is the matched
    item's snippet, or the empty string when that snippet is missing or
    empty; so the snippet is null only when the rank is null. *)
Theorem saveResults_snippet_not_null env kw results w w' :
  saveResults env kw results w = (Returned tt, w') ->
  exists rs r,
    resultsFile w = Rankings rs /\
    resultsFile w' = Rankings (rs ++ [r]) /\
    (rank r <> None -> snippet r <> None) /\
    (snippet r = None -> rank r = None) /\
    (forall i m, firstMatch results i m ->
                 rank r <> None /\
                 snippet r = Some (match item_snippet m with
                                   | Some s => s
                                   | None => ""
                                   end)).
Proof.
  intros Hrun.
  destruct (saveResults_returned _ _ _ _ _ Hrun) as (rs & Hfile & Hwrite).
  destruct (findRanking_spec results 0) as [(i & m & Hfirst & _) | [Hnone _]].
  - rewrite (saveResults_found _ kw _ _ _ _ _ Hfile Hwrite Hfirst) in Hrun.
    injection Hrun as <-.
    exists rs, (foundRecord kw (now env) i m).
    split; [exact Hfile | split; [reflexivity |]]. cbn.
    split; [discriminate | split; [discriminate |]].
    intros i' m' Hfirst'.
    destruct (firstMatch_unique _ _ _ _ _ Hfirst Hfirst') as [<- <-].
    split; [discriminate |].
    destruct (item_snippet m) as [[|c s] |]; reflexivity.
  - rewrite (saveResults_absent _ kw _ _ _ Hfile Hwrite Hnone) in Hrun.
    injection Hrun as <-.
    exists rs, (notFoundRecord kw (now env)).
    split; [exact Hfile | split; [reflexivity |]]. cbn.
    split; [congruence | split; [reflexivity |]].
    intros i m Hfirst. exfalso. exact (firstMatch_not_noMatch _ _ _ Hfirst Hnone).
Qed.

Lemma saveResults_snippet_not_null_witness :
  exists w' r,
    saveResults (sampleEnv 1000) "laravel" sampleResults (storeOf [])
    = (Returned tt, w') /\
    resultsFile w' = Rankings [r] /\
    rank r <> None /\
    snippet r = Some "".
Proof.
  eexists.
  destruct (saveResults_snippet_not_null
              (sampleEnv 1000) "laravel" sampleResults (storeOf []) _ eq_refl)
    as (rs & r & Hfile & Hfile' & _ & _ & Hfound).
  injection Hfile as <-.
  exists r. split; [reflexivity | split; [exact Hfile' |]].
  exact (Hfound _ _ sampleResults_firstMatch).
Defined.

End SaveResults.

(* ------------------------------------------------------------------------- *)
(** ** Sorting *)

Section SortFacts.
Context {A : Type}.

Lemma insert_perm (cmp : A -> A -> Z) (x : A) (l : list A) :
  Permutation (Js.insert cmp x l) (x :: l).
Proof.
  induction l as [|y l IH]; simpl.
  - apply Permutation_refl.
  - destruct (cmp x y <=? 0).
    + apply Permutation_refl.
    + apply perm_trans with (y :: x :: l).
      * now apply perm_skip.
      * apply perm_swap.
Qed.

Lemma sort_perm (cmp : A -> A -> Z) (l : list A) :
  Permutation (Js.sort cmp l) l.
Proof.
  induction l as [|x l IH]; simpl.
  - apply perm_nil.
  - apply perm_trans with (x :: Js.sort cmp l).
    + apply insert_perm.
    + now apply perm_skip.
Qed.

Lemma sort_length (cmp : A -> A -> Z) (l : list A) :
  length (Js.sort cmp l) = length l.
Proof. apply Permutation_length, sort_perm. Qed.

Lemma sort_nil_inv (cmp : A -> A -> Z) (l : list A) :
  Js.sort cmp l = [] -> l = [].
Proof.
  intros H. apply length_zero_iff_nil.
  rewrite <- (sort_length cmp), H. reflexivity.
Qed.

(** Sorting in descending order of a key, as the comparators
    [(a, b) => key(b) - key(a)] of the program do. *)
Variable key : A -> Z.
Let desc (a b : A) : Z := key b - key a.
Let before (a b : A) : Prop := key a >= key b.

Lemma insert_sorted (x : A) (l : list A) :
  StronglySorted before l -> StronglySorted before (Js.insert desc x l).
Proof.
  induction 1 as [|y l Hs IH Hy]; simpl.
  - constructor; constructor.
  - destruct (Z.leb_spec (desc x y) 0) as [Hle | Hgt].
    + constructor; [now constructor |].
      constructor; [unfold before, desc in *; lia |].
      eapply Forall_impl; [| exact Hy].
      unfold before, desc in *. intros z Hz. lia.
    + constructor; [exact IH |].
      eapply Permutation_Forall; [apply Permutation_sym, insert_perm |].
      constructor; [unfold before, desc in *; lia | exact Hy].
Qed.

Lemma sort_sorted (l : list A) : StronglySorted before (Js.sort desc l).
Proof.
  induction l as [|x l IH]; simpl.
  - constructor.
  - now apply insert_sorted.
Qed.

(** The sort is stable: elements with the same key keep their order. *)
Lemma insert_stable (k : Z) (x : A) (l : list A) :
  StronglySorted before l ->
  filter (fun a => key a =? k) (Js.insert desc x l)
  = filter (fun a => key a =? k) (x :: l).
Proof.
  induction 1 as [|y l Hs IH Hy]; [reflexivity |].
  cbn [Js.insert]. destruct (Z.leb_spec (desc x y) 0) as [Hle | Hgt].
  - reflexivity.
  - cbn [filter] in *. rewrite IH.
    destruct (Z.eqb_spec (key y) k) as [Hyk | Hyk];
      destruct (Z.eqb_spec (key x) k) as [Hxk | Hxk]; try reflexivity.
    unfold desc in Hgt. lia.
Qed.

Lemma sort_stable (k : Z) (l : list A) :
  filter (fun a => key a =? k) (Js.sort desc l)
  = filter (fun a => key a =? k) l.
Proof.
  induction l as [|x l IH]; [reflexivity |].
  cbn [Js.sort fold_right]. fold (Js.sort desc l).
  rewrite insert_stable by apply sort_sorted.
  cbn [filter]. now rewrite IH.
Qed.

End SortFacts.

(* ------------------------------------------------------------------------- *)
(** ** Objects used as dictionaries *)

Section ObjectFacts.
Context {V : Type}.

Lemma own_set_same (o : Js.object V) (k : string) (v : V) :
  Js.own (Js.set o k v) k = Some v.
Proof.
  induction o as [|[k' v'] o IH]; simpl.
  - now rewrite String.eqb_refl.
  - destruct (String.eqb k k') eqn:E; simpl; rewrite E; [reflexivity | exact IH].
Qed.

Lemma own_set_other (o : Js.object V) (k k' : string) (v : V) :
  k' <> k -> Js.own (Js.set o k v) k' = Js.own o k'.
Proof.
  intros Hne. induction o as [|[k0 v0] o IH]; simpl.
  - destruct (String.eqb_spec k' k); [contradiction | reflexivity].
  - destruct (String.eqb_spec k k0) as [-> | Hk]; simpl.
    + destruct (String.eqb_spec k' k0); [contradiction | reflexivity].
    + destruct (String.eqb k' k0); [reflexivity | exact IH].
Qed.

Lemma own_In (o : Js.object V) (k : string) (v : V) :
  Js.own o k = Some v -> In (k, v) o.
Proof.
  induction o as [|[k' v'] o IH]; simpl; [discriminate |].
  destruct (String.eqb_spec k k') as [-> | Hk].
  - intros [= ->]. now left.
  - intros H. right. now apply IH.
Qed.

Lemma own_None_not_In (o : Js.object V) (k : string) (v : V) :
  Js.own o k = None -> ~ In (k, v) o.
Proof.
  induction o as [|[k' v'] o IH]; simpl; [tauto |].
  destruct (String.eqb_spec k k') as [-> | Hk]; [discriminate |].
  intros H [[= <- _] | Hin]; [congruence | now apply IH].
Qed.

Lemma In_own (o : Js.object V) (k : string) (v : V) :
  NoDup (map fst o) -> In (k, v) o -> Js.own o k = Some v.
Proof.
  induction o as [|[k' v'] o IH]; simpl; [tauto |].
  intros Hnd Hin. inversion Hnd as [|? ? Hnotin Hnd']; subst.
  destruct Hin as [[= -> ->] | Hin].
  - now rewrite String.eqb_refl.
  - destruct (String.eqb_spec k k') as [-> | Hk]; [| now apply IH].
    exfalso. apply Hnotin. now apply (in_map fst) in Hin.
Qed.

Lemma keys_set (o : Js.object V) (k : string) (v : V) :
  map fst (Js.set o k v)
  = match Js.own o k with
    | Some _ => map fst o
    | None => (map fst o ++ [k])%list
    end.
Proof.
  induction o as [|[k' v'] o IH]; simpl; [reflexivity |].
  destruct (String.eqb k k') eqn:E; simpl; [reflexivity |].
  rewrite IH. now destruct (Js.own o k).
Qed.

Lemma own_None_not_key (o : Js.object V) (k : string) :
  Js.own o k = None -> ~ In k (map fst o).
Proof.
  intros Hown Hin. apply in_map_iff in Hin as ([k' v] & Hk & Hin).
  simpl in Hk; subst k'. exact (own_None_not_In o k v Hown Hin).
Qed.

Lemma NoDup_keys_set (o : Js.object V) (k : string) (v : V) :
  NoDup (map fst o) -> NoDup (map fst (Js.set o k v)).
Proof.
  intros Hnd. rewrite keys_set. destruct (Js.own o k) eqn:Hown; [exact Hnd |].
  apply NoDup_app.
  - exact Hnd.
  - constructor; [intros [] | constructor].
  - intros x Hx [-> | []]. exact (own_None_not_key o x Hown Hx).
Qed.

(** [Object.entries] enumerates the own properties, each once. *)
Lemma entries_perm (o : Js.object V) : Permutation (Js.entries o) o.
Proof.
  unfold Js.entries.
  eapply perm_trans.
  - apply Permutation_app_tail, sort_perm.
  - induction o as [|kv o IH]; simpl; [apply perm_nil |].
    destruct (Js.is_array_index (fst kv)); simpl.
    + now apply perm_skip.
    + eapply perm_trans; [apply Permutation_sym, Permutation_middle |].
      now apply perm_skip.
Qed.

Lemma entries_In (o : Js.object V) (kv : string * V) :
  In kv (Js.entries o) <-> In kv o.
Proof.
  split; apply Permutation_in;
    [apply entries_perm | apply Permutation_sym, entries_perm].
Qed.

End ObjectFacts.

(* ------------------------------------------------------------------------- *)
(** ** [generateReport] *)

Section GenerateReport.
Import Analyzer.

Lemma recordsOf_snoc (kw : string) (pre : list RankingRecord) (x : RankingRecord) :
  recordsOf kw (pre ++ [x])
  = (recordsOf kw pre ++ if String.eqb (keyword x) kw then [x] else [])%list.
Proof. unfold recordsOf. rewrite filter_app. reflexivity. Qed.

Lemma nonEmpty_Some {A : Type} (l g : list A) :
  nonEmpty l = Some g -> l = g /\ g <> [].
Proof. destruct l; simpl; [discriminate |]. intros [= <-]. split; congruence. Qed.

Lemma nonEmpty_None {A : Type} (l : list A) : nonEmpty l = None -> l = [].
Proof. destruct l; simpl; [reflexivity | discriminate]. Qed.

Lemma nonEmpty_snoc {A : Type} (l : list A) (x : A) :
  nonEmpty (l ++ [x]) = Some (l ++ [x])%list.
Proof. destruct l; reflexivity. Qed.

Lemma groupStep_grouped pre acc x acc' :
  grouped pre acc ->
  groupStep acc x = Returned acc' ->
  grouped (pre ++ [x]) acc'.
Proof.
  intros [Hnd Hown] Hstep. unfold groupStep, Js.get in Hstep.
  assert (Hk := Hown (keyword x)).
  destruct (Js.own acc (keyword x)) as [g |] eqn:Hg.
  - injection Hstep as <-. symmetry in Hk.
    apply nonEmpty_Some in Hk as [Hk _].
    split; [now apply NoDup_keys_set |].
    intros kw. rewrite recordsOf_snoc.
    destruct (String.eqb_spec (keyword x) kw) as [<- | Hne].
    + rewrite own_set_same, Hk, nonEmpty_snoc. reflexivity.
    + rewrite own_set_other by congruence. rewrite app_nil_r. apply Hown.
  - destruct (Js.inherited (keyword x)); [discriminate |].
    injection Hstep as <-. symmetry in Hk. apply nonEmpty_None in Hk.
    split; [now apply NoDup_keys_set |].
    intros kw. rewrite recordsOf_snoc.
    destruct (String.eqb_spec (keyword x) kw) as [<- | Hne].
    + rewrite own_set_same, Hk. reflexivity.
    + rewrite own_set_other by congruence. rewrite app_nil_r. apply Hown.
Qed.

Lemma reduce_groupStep_grouped l :
  forall pre acc groups,
    grouped pre acc ->
    reduce groupStep l acc = Returned groups ->
    grouped (pre ++ l) groups.
Proof.
  induction l as [|x l IH]; intros pre acc groups Hinv Hred; simpl in Hred.
  - injection Hred as <-. now rewrite app_nil_r.
  - destruct (groupStep acc x) as [acc' |] eqn:Hstep; [| discriminate].
    replace (pre ++ x :: l)%list with ((pre ++ [x]) ++ l)%list
      by (rewrite <- app_assoc; reflexivity).
    eapply IH; [| exact Hred].
    eapply groupStep_grouped; eauto.
Qed.

(** The groups of [byKeyword]: one per keyword that occurs, holding that
    keyword's records in store order. *)
Lemma byKeyword_grouped rs groups :
  byKeyword rs = Returned groups -> grouped rs groups.
Proof.
  intros H. apply (reduce_groupStep_grouped rs [] []); [| exact H].
  split; [constructor | reflexivity].
Qed.

Lemma byKeyword_entries rs groups kw group :
  byKeyword rs = Returned groups ->
  In (kw, group) (Js.entries groups) ->
  group = recordsOf kw rs /\ group <> [].
Proof.
  intros Hby Hin. apply byKeyword_grouped in Hby as [Hnd Hown].
  apply (proj1 (entries_In groups (kw, group))) in Hin.
  apply In_own in Hin; [| exact Hnd].
  rewrite Hown in Hin. apply nonEmpty_Some in Hin as [-> Hne]. now split.
Qed.

Lemma addConsole_nil w : addConsole w [] = w.
Proof. destruct w; unfold addConsole; simpl. now rewrite app_nil_r. Qed.

Lemma addConsole_app w a b :
  addConsole (addConsole w a) b = addConsole w (a ++ b).
Proof. unfold addConsole; simpl. now rewrite app_assoc. Qed.

Lemma reportGroup_lines kw results w :
  results <> [] ->
  reportGroup kw results w = (Returned tt, addConsole w (groupLines kw results)).
Proof.
  intros Hne. unfold reportGroup, groupLines.
  destruct (Js.sort byDateDesc results) as [|latest rest] eqn:Hs.
  { apply sort_nil_inv in Hs. contradiction. }
  cbn [nth_error]. unfold latestLines, trendLines.
  destruct rest as [|previous rest].
  - destruct (Z.ltb_spec 1 (Z.of_nat (length [latest]))) as [Hlen | _];
      [simpl in Hlen; lia |].
    destruct (Js.truthy (rank latest));
      cbv beta iota delta [bind console_log ret addConsole];
      cbn [console resultsFile logged csvFiles];
      rewrite <- ?app_assoc; reflexivity.
  - destruct (Z.ltb_spec 1 (Z.of_nat (length (latest :: previous :: rest))))
      as [_ | Hlen]; [| cbn [length] in Hlen; lia].
    cbn [nth_error].
    destruct (Js.truthy (rank latest));
      cbv beta iota delta [bind console_log ret addConsole];
      cbn [console resultsFile logged csvFiles];
      rewrite <- ?app_assoc; reflexivity.
Qed.

Lemma forEach_reportGroup (l : list (string * list RankingRecord)) :
  forall w,
    (forall kv, In kv l -> snd kv <> []) ->
    forEach (fun kv => reportGroup (fst kv) (snd kv)) l w
    = (Returned tt,
       addConsole w (flat_map (fun kv => groupLines (fst kv) (snd kv)) l)).
Proof.
  induction l as [|kv l IH]; intros w Hne; simpl.
  - unfold ret. now rewrite addConsole_nil.
  - unfold bind. rewrite reportGroup_lines by (apply Hne; now left).
    rewrite IH by (intros kv' Hin; apply Hne; now right).
    now rewrite addConsole_app.
Qed.

(** The console report of a store that is not empty. *)
Lemma generateReport_console env format w rs groups :
  resultsFile w = Rankings rs ->
  rs <> [] ->
  byKeyword rs = Returned groups ->
  String.eqb format "csv" = false ->
  generateReport env format w
  = (Returned tt,
     addConsole w (reportHeader
                   ++ flat_map (fun kv => groupLines (fst kv) (snd kv))
                               (Js.entries groups))).
Proof.
  intros Hfile Hne Hby Hfmt.
  unfold generateReport, try_catch, bind, readRankings, await.
  rewrite Hfile.
  destruct (Z.eqb_spec (Z.of_nat (length rs)) 0) as [Hz | _].
  { destruct rs; [contradiction | simpl in Hz; lia]. }
  rewrite Hby, Hfmt.
  cbv beta iota delta [console_log].
  rewrite forEach_reportGroup.
  - unfold addConsole, reportHeader.
    cbn [console resultsFile logged csvFiles].
    rewrite <- !app_assoc. reflexivity.
  - intros [kw group] Hin. simpl.
    exact (proj2 (byKeyword_entries rs groups kw group Hby Hin)).
Qed.

(** A [generateReport] call that returns on a store that is not empty has
    grouped the records. *)
Lemma generateReport_returned env format w w' rs :
  resultsFile w = Rankings rs ->
  rs <> [] ->
  generateReport env format w = (Returned tt, w') ->
  exists groups, byKeyword rs = Returned groups.
Proof.
  intros Hfile Hne.
  unfold generateReport, try_catch, bind, readRankings, await.
  rewrite Hfile.
  destruct (Z.eqb_spec (Z.of_nat (length rs)) 0) as [Hz | _].
  { destruct rs; [contradiction | simpl in Hz; lia]. }
  destruct (byKeyword rs) as [groups | e]; [eauto |].
  cbn. discriminate.
Qed.

(** C7: on a store with no records [generateReport] logs the warning and
    returns; whatever the format, nothing is printed on the console and no
    CSV file is written. *)
Theorem generateReport_empty_store env format w :
  resultsFile w = Rankings [] ->
  generateReport env format w
  = (Returned tt,
     {| resultsFile := resultsFile w;
        logged := logged w ++ [(Warn, "No ranking data available")];
        console := console w;
        csvFiles := csvFiles w |}).
Proof.
  intros Hfile. destruct w as [file logs out files].
  cbn [resultsFile] in Hfile. subst file. reflexivity.
Qed.

Lemma generateReport_empty_store_witness :
  resultsFile (storeOf []) = Rankings [] /\
  generateReport (sampleEnv 1000) "csv" (storeOf [])
  = (Returned tt,
     {| resultsFile := Rankings [];
        logged := [(Warn, "No ranking data available")];
        console := [];
        csvFiles := [] |}).
Proof.
  split; [reflexivity |].
  exact (generateReport_empty_store (sampleEnv 1000) "csv" (storeOf []) eq_refl).
Defined.

Lemma truthy_valid (v : option Z) :
  (forall n, v = Some n -> 1 <= n) ->
  Js.truthy v = match v with Some _ => true | None => false end.
Proof.
  intros Hv. destruct v as [n |]; [| reflexivity]. simpl.
  specialize (Hv n eq_refl). destruct (Z.eqb_spec n 0); [lia | reflexivity].
Qed.

(** On ranks of the data model the computed trend is the marker of the
    specification. *)
Lemma trend_is_marker latest previous :
  (forall n, rank latest = Some n -> 1 <= n) ->
  (forall n, rank previous = Some n -> 1 <= n) ->
  trend latest previous = trendMarker latest previous.
Proof.
  intros Hl Hp. unfold trend, trendMarker, Js.lt, Js.gt.
  rewrite (truthy_valid _ Hl), (truthy_valid _ Hp).
  destruct (rank latest) as [a |], (rank previous) as [b |]; try reflexivity.
  simpl. rewrite Z.gtb_ltb. reflexivity.
Qed.

Lemma groupLines_trend kw group :
  filter isTrendLine (groupLines kw group)
  = trendLines (Js.sort byDateDesc group).
Proof.
  unfold groupLines.
  destruct (Js.sort byDateDesc group) as [|latest rest]; [reflexivity |].
  unfold latestLines, trendLines.
  destruct (Js.truthy (rank latest)), rest as [|previous rest]; reflexivity.
Qed.

(** The marker for a latest rank 3 after a previous rank 5, and the other
    way round. *)
Example trend_latest_3_previous_5 :
  trend (rankedRecord "laravel" 3 2000) (rankedRecord "laravel" 5 1000)
  = Improved /\
  trend (rankedRecord "laravel" 5 2000) (rankedRecord "laravel" 3 1000)
  = Dropped /\
  trend (rankedRecord "laravel" 4 2000) (rankedRecord "laravel" 4 1000)
  = NoChange /\
  trend (rankedRecord "laravel" 4 2000) (notFoundRecord "laravel" 1000)
  = NotApplicable.
Proof. repeat split. Qed.

(** C2, amended: in the console report, a keyword group with at least two
    records gets one trend line; its marker compares the most recent record
    with the second most recent one after sorting by timestamp descending:
    'improved' when the latest rank is smaller, 'dropped' when larger,
    'no change' when equal, 'N/A' when either rank is null.  A group with
    fewer than two records gets no trend line. *)
Theorem console_report_trend env w w' rs :
  resultsFile w = Rankings rs ->
  rs <> [] ->
  validRanks rs ->
  generateReport env "console" w = (Returned tt, w') ->
  exists groups,
    byKeyword rs = Returned groups /\
    console w' = (console w ++ reportHeader
                  ++ flat_map (fun kv => groupLines (fst kv) (snd kv))
                              (Js.entries groups))%list /\
    forall kw group,
      In (kw, group) (Js.entries groups) ->
      let sorted := Js.sort byDateDesc group in
      group = recordsOf kw rs /\
      Permutation sorted group /\
      descending sorted /\
      filter isTrendLine (groupLines kw group)
      = match sorted with
        | latest :: previous :: _ =>
            ["Trend: " ++ trend_text (trendMarker latest previous)]
        | _ => []
        end.
Proof.
  intros Hfile Hne Hvalid Hrun.
  destruct (generateReport_returned _ _ _ _ _ Hfile Hne Hrun) as [groups Hby].
  exists groups. split; [exact Hby |].
  rewrite (generateReport_console env "console" w rs groups Hfile Hne Hby eq_refl)
    in Hrun.
  injection Hrun as <-. split; [reflexivity |].
  intros kw group Hin sorted.
  destruct (byKeyword_entries _ _ _ _ Hby Hin) as [Hgroup _].
  assert (Hperm : Permutation sorted group) by apply sort_perm.
  split; [exact Hgroup | split; [exact Hperm | split]].
  - exact (sort_sorted timestamp group).
  - rewrite groupLines_trend. fold sorted. unfold trendLines.
    assert (Hin_rs : forall r, In r sorted -> In r rs).
    { intros r Hr. apply (Permutation_in _ Hperm) in Hr.
      rewrite Hgroup in Hr. unfold recordsOf in Hr.
      now apply filter_In in Hr. }
    destruct sorted as [|latest [|previous rest]]; try reflexivity.
    rewrite trend_is_marker; [reflexivity | |].
    + intros n Hn. apply (Hvalid latest); [apply Hin_rs; now left | exact Hn].
    + intros n Hn.
      apply (Hvalid previous); [apply Hin_rs; right; now left | exact Hn].
Qed.

Lemma console_report_trend_witness :
  validRanks [rankedRecord "laravel" 5 1000; rankedRecord "laravel" 3 2000] /\
  exists w',
    generateReport (sampleEnv 3000) "console"
                   (storeOf [rankedRecord "laravel" 5 1000;
                             rankedRecord "laravel" 3 2000])
    = (Returned tt, w') /\
    filter isTrendLine (console w')
    = ["Trend: " ++ trend_text Improved].
Proof.
  set (rs := [rankedRecord "laravel" 5 1000; rankedRecord "laravel" 3 2000]).
  assert (Hvalid : validRanks rs).
  { intros r n [<- | [<- | []]] [= <-]; lia. }
  split; [exact Hvalid |].
  set (w' := snd (generateReport (sampleEnv 3000) "console" (storeOf rs))).
  assert (Hrun : generateReport (sampleEnv 3000) "console" (storeOf rs)
                 = (Returned tt, w')) by (vm_compute; reflexivity).
  exists w'. split; [exact Hrun |].
  destruct (console_report_trend
              (sampleEnv 3000) (storeOf rs) w' rs
              eq_refl ltac:(discriminate) Hvalid Hrun)
    as (groups & Hby & Hconsole & Hgroups).
  assert (Hgroups_eq : groups = [("laravel", rs)]).
  { vm_compute in Hby. injection Hby as <-. vm_compute. reflexivity. }
  assert (Hin : In ("laravel", rs) (Js.entries groups)).
  { rewrite Hgroups_eq. vm_compute. left. reflexivity. }
  destruct (Hgroups "laravel" rs Hin) as (_ & _ & _ & Htrend).
  rewrite Hconsole, Hgroups_eq.
  transitivity (filter isTrendLine (groupLines "laravel" rs)).
  - vm_compute. reflexivity.
  - rewrite Htrend. vm_compute. reflexivity.
Defined.

(** C2 as stated fails: a keyword with a single record is a group of the
    console report, the claimed marker for it is 'N/A', and the report has
    no trend line for it. *)
Lemma console_report_trend_counterexample :
  exists w',
    generateReport (sampleEnv 2000) "console"
                   (storeOf [rankedRecord "laravel" 3 1000])
    = (Returned tt, w') /\
    byKeyword [rankedRecord "laravel" 3 1000]
    = Returned [("laravel", [rankedRecord "laravel" 3 1000])] /\
    claimedTrend (Js.sort byDateDesc [rankedRecord "laravel" 3 1000])
    = NotApplicable /\
    ~ In ("Trend: " ++ trend_text NotApplicable) (console w') /\
    filter isTrendLine (console w') = [].
Proof.
  exists (snd (generateReport (sampleEnv 2000) "console"
                              (storeOf [rankedRecord "laravel" 3 1000]))).
  split; [vm_compute; reflexivity |].
  split; [vm_compute; reflexivity |].
  split; [vm_compute; reflexivity |].
  split; [| vm_compute; reflexivity].
  intros Hin. vm_compute in Hin.
  repeat (destruct Hin as [Hin | Hin]; [discriminate Hin |]).
  exact Hin.
Qed.

End GenerateReport.

(* ------------------------------------------------------------------------- *)
(** ** The searcher *)

Section SearcherFacts.
Import Searcher.

Lemma try_catch_returns {S : Type} (body : M S unit) (handler : exn -> M S unit)
      (s : S) :
  (forall e s0, exists s1, handler e s0 = (Returned tt, s1)) ->
  exists s', try_catch body handler s = (Returned tt, s').
Proof.
  intros Hh. unfold try_catch.
  destruct (body s) as [[[] | e] s0]; [eauto | apply Hh].
Qed.

(** [search] either returns the accumulated [results], or throws what
    [page.close] threw in the [finally] block. *)
Lemma search_outcome env kw numPages s :
  (exists s', search env kw numPages s = (Returned (results s'), s')) \/
  (exists e s', search env kw numPages s = (Thrown e, s') /\
                pageClose env = Thrown e /\ page s' <> None).
Proof.
  unfold search.
  cbv beta iota delta [bind set_results set_page get try_finally].
  match goal with
  | |- context [try_catch ?b ?h ?s0] =>
      destruct (try_catch_returns b h s0) as [s1 H1]
  end.
  { intros e s0. eexists. reflexivity. }
  rewrite H1. cbv beta iota.
  destruct (page s1) as [p |] eqn:Hp.
  - unfold call. destruct (pageClose env) as [[] | e] eqn:Hclose.
    + left. eexists. reflexivity.
    + right. eexists; eexists. split; [reflexivity |].
      split; [reflexivity |]. cbn [page]. congruence.
  - left. eexists. reflexivity.
Qed.

(** When closing the page succeeds, [search] returns. *)
Lemma search_returns env kw numPages s :
  pageClose env = Returned tt ->
  exists s', search env kw numPages s = (Returned (results s'), s').
Proof.
  intros Hclose.
  destruct (search_outcome env kw numPages s) as [H | (e & s' & _ & He & _)];
    [exact H | congruence].
Qed.

(** C6: the browser goes away during the first navigation.  [search] logs
    the navigation error, and the exception of [page.close] in the
    [finally] block leaves the call. *)
Theorem search_throws_when_page_close_fails :
  search disconnected "laravel" 1 idle
  = (Thrown (Err "Protocol error: Connection closed."),
     {| browser := Some Handle;
        results := [];
        page := Some Handle;
        logged :=
          [(Info, "Searching page 1 for: laravel");
           (Error, "Search failed: "
                   ++ "Navigation failed because browser has disconnected!")];
        calls := [Launch; NewPage; SetUserAgent; EvaluateOnNewDocument; Sleep;
                  Goto "laravel" 0 30000; PageClose] |}).
Proof. vm_compute. reflexivity. Qed.

(** On a page with the CAPTCHA form whose wait times out, the loop body
    logs the timeout and goes on to extract the results of the page as it
    then is. *)
Lemma searchPage_captcha_timeout env kw numPages pageNum s e items :
  goto env pageNum = Returned tt ->
  captchaForm env pageNum = Returned true ->
  waitForNavigation env pageNum = Thrown e ->
  evaluate env pageNum = Returned items ->
  exists s',
    searchPage env kw numPages pageNum s = (Returned tt, s') /\
    results s' = (results s ++ items)%list /\
    In (Error, "Timeout waiting for CAPTCHA solution") (logged s') /\
    In (WaitForNavigation 60000) (calls s').
Proof.
  intros Hgoto Hcaptcha Hwait Heval. destruct s as [b r p l c].
  unfold searchPage.
  cbv beta iota zeta delta [bind try_catch call log get set_results ret
                            browser results page logged calls].
  rewrite Hgoto, Hcaptcha, Hwait, Heval.
  cbv beta iota.
  destruct (pageNum <? numPages - 1); cbv beta iota;
    (eexists; split; [reflexivity |]);
    cbv beta iota delta [results logged calls];
    (split; [reflexivity |]);
    rewrite !in_app_iff; cbn [In]; intuition auto.
Qed.

(** C8: the CAPTCHA form is detected on the only page and the wait of 60
    seconds times out.  The timeout is logged and the call goes on, but the
    page's results are whatever the extraction then finds: the empty list
    returned by the timeout handler is dropped. *)
Theorem search_captcha_timeout_keeps_results :
  search (captchaTimeout [itemAt "https://example.org/" (Some "late")])
         "laravel" 1 idle
  = (Returned [itemAt "https://example.org/" (Some "late")],
     {| browser := Some Handle;
        results := [itemAt "https://example.org/" (Some "late")];
        page := Some Handle;
        logged :=
          [(Info, "Searching page 1 for: laravel");
           (Info, "CAPTCHA detected - waiting for manual solve...");
           (Error, "Timeout waiting for CAPTCHA solution");
           (Info, "Found 1 results on page 1")];
        calls := [Launch; NewPage; SetUserAgent; EvaluateOnNewDocument; Sleep;
                  Goto "laravel" 0 30000; QueryCaptcha;
                  WaitForNavigation 60000; Extract; PageClose] |}).
Proof. vm_compute. reflexivity. Qed.

(** C9: [close] does nothing when there is no browser; it closes the
    browser and forgets it when there is one; and after a [close] that
    returned, the searcher has no browser and any further [close] leaves it
    as it is, without calling the browser. *)
Theorem close_idempotent env s :
  (browser s = None -> close env s = (Returned tt, s)) /\
  (browser s <> None -> browserClose env = Returned tt ->
   close env s = (Returned tt, closed s)) /\
  (forall s', close env s = (Returned tt, s') ->
              browser s' = None /\
              forall env', close env' s' = (Returned tt, s')).
Proof.
  unfold close, bind, get, call, set_browser.
  destruct s as [[b |] r p l c]; cbn [browser results page logged calls].
  - split; [discriminate | split].
    + intros _ ->. reflexivity.
    + intros s'. destruct (browserClose env) as [[] | e]; [| discriminate].
      intros [= <-]. split; reflexivity.
  - split; [reflexivity | split].
    + intros H. now contradiction H.
    + intros s' [= <-]. split; reflexivity.
Qed.

Lemma close_idempotent_witness :
  exists s',
    close (smooth []) (snd (search (smooth []) "laravel" 1 idle))
    = (Returned tt, s') /\
    browser s' = None /\
    In BrowserClose (calls s') /\
    close disconnected s' = (Returned tt, s').
Proof.
  set (s := snd (search (smooth []) "laravel" 1 idle)).
  destruct (close_idempotent (smooth []) s) as (_ & Hopen & Hagain).
  assert (Hrun : close (smooth []) s = (Returned tt, closed s)).
  { apply Hopen; [vm_compute; discriminate | reflexivity]. }
  exists (closed s). split; [exact Hrun |].
  destruct (Hagain _ Hrun) as [Hnone Hnoop].
  split; [exact Hnone | split; [| apply Hnoop]].
  cbn [calls closed]. apply in_or_app. right. now left.
Defined.

End SearcherFacts.

(* ------------------------------------------------------------------------- *)
(** ** [getKeywordSummary] *)

Section KeywordSummary.
Import Analyzer.

Lemma math_min_fold (xs : list Z) :
  forall x, In (Js.math_min x xs) (x :: xs) /\
            forall y, In y (x :: xs) -> Js.math_min x xs <= y.
Proof.
  unfold Js.math_min.
  induction xs as [|a xs IH]; intros x; simpl.
  - split; [now left | intros y [<- | []]; lia].
  - destruct (IH (Z.min x a)) as [Hin Hle]. split.
    + destruct Hin as [Hmin | Hin]; [| right; now right].
      rewrite <- Hmin. destruct (Z.min_spec x a) as [[_ ->] | [_ ->]]; auto.
    + intros y Hy.
      assert (Hm : fold_left Z.min xs (Z.min x a) <= Z.min x a)
        by (apply Hle; now left).
      destruct Hy as [<- | [<- | Hy]]; [lia | lia |].
      apply Hle. now right.
Qed.

Lemma math_max_fold (xs : list Z) :
  forall x, In (Js.math_max x xs) (x :: xs) /\
            forall y, In y (x :: xs) -> y <= Js.math_max x xs.
Proof.
  unfold Js.math_max.
  induction xs as [|a xs IH]; intros x; simpl.
  - split; [now left | intros y [<- | []]; lia].
  - destruct (IH (Z.max x a)) as [Hin Hle]. split.
    + destruct Hin as [Hmax | Hin]; [| right; now right].
      rewrite <- Hmax. destruct (Z.max_spec x a) as [[_ ->] | [_ ->]]; auto.
    + intros y Hy.
      assert (Hm : Z.max x a <= fold_left Z.max xs (Z.max x a))
        by (apply Hle; now left).
      destruct Hy as [<- | [<- | Hy]]; [lia | lia |].
      apply Hle. now right.
Qed.

Lemma historyOf_snoc kw pre x :
  historyOf kw (pre ++ [x])
  = (historyOf kw pre
     ++ if String.eqb (keyword x) kw && ranked x
        then [ {| h_rank := rank x; date := timestamp x |} ]
        else [])%list.
Proof.
  unfold historyOf. rewrite recordsOf_snoc, filter_app, map_app.
  f_equal. destruct (String.eqb (keyword x) kw); simpl; [| reflexivity].
  destruct (ranked x); reflexivity.
Qed.

Lemma historyOf_ranked kw rs e :
  In e (historyOf kw rs) -> exists n, h_rank e = Some n.
Proof.
  unfold historyOf. intros Hin.
  apply in_map_iff in Hin as (r & <- & Hr).
  apply filter_In in Hr as [_ Hr]. unfold ranked in Hr. simpl.
  destruct (rank r) as [n |]; [now exists n | discriminate].
Qed.

Lemma historyOf_nil kw rs : recordsOf kw rs = [] -> historyOf kw rs = [].
Proof. unfold historyOf. now intros ->. Qed.

Lemma snoc_not_nil {A B : Type} (l : list A) (x : A) (v : B) :
  match (l ++ [x])%list with
  | [] => None
  | _ => Some v
  end = Some v.
Proof. destruct l; reflexivity. Qed.

Lemma collectStep_collected pre acc x :
  collected pre acc ->
  Js.inherited (keyword x) = false ->
  (forall n, rank x = Some n -> 1 <= n) ->
  exists acc', collectStep acc x = Returned acc' /\ collected (pre ++ [x]) acc'.
Proof.
  intros [Hnd Hown] Hord Hvalid.
  (* the entry of the keyword exists once the guard has run *)
  set (k := keyword x).
  set (s1 := match Js.get acc k with
             | Js.Undefined => Js.set acc k emptySummary
             | _ => acc
             end).
  assert (Hs1 : NoDup (map fst s1) /\
                Js.own s1 k = Some (collecting (historyOf k pre)) /\
                forall kw, kw <> k -> Js.own s1 kw = Js.own acc kw).
  { subst s1. unfold Js.get. fold k in Hord. rewrite Hord.
    assert (Hk := Hown k).
    destruct (Js.own acc k) as [data |] eqn:Hacc.
    - split; [exact Hnd | split; [| reflexivity]].
      rewrite Hacc. destruct (recordsOf k pre); [discriminate | exact Hk].
    - split; [now apply NoDup_keys_set | split].
      + rewrite own_set_same. f_equal.
        destruct (recordsOf k pre) eqn:Hrec; [| discriminate].
        now rewrite (historyOf_nil k pre Hrec).
      + intros kw Hne. now apply own_set_other. }
  destruct Hs1 as (Hnd1 & Hown1 & Hother1).
  unfold collectStep. fold k. fold s1.
  rewrite (truthy_valid _ Hvalid).
  assert (Hrest : forall acc' hs,
             NoDup (map fst acc') ->
             Js.own acc' k = Some (collecting hs) ->
             hs = historyOf k (pre ++ [x]) ->
             (forall kw, kw <> k -> Js.own acc' kw = Js.own acc kw) ->
             collected (pre ++ [x]) acc').
  { intros acc' hs Hnd' Hk' Hhs Hother'. split; [exact Hnd' |].
    intros kw. rewrite recordsOf_snoc.
    destruct (String.eqb_spec (keyword x) kw) as [<- | Hne].
    - fold k. rewrite snoc_not_nil, Hk', Hhs. reflexivity.
    - rewrite app_nil_r, Hother' by (unfold k; congruence).
      rewrite Hown, historyOf_snoc.
      destruct (String.eqb_spec (keyword x) kw) as [? | _]; [contradiction |].
      simpl. now rewrite app_nil_r. }
  destruct (rank x) as [n |] eqn:Hrank.
  - unfold Js.get. rewrite Hown1. eexists. split; [reflexivity |].
    apply (Hrest _ (historyOf k pre ++ [ {| h_rank := Some n;
                                            date := timestamp x |} ])%list).
    + now apply NoDup_keys_set.
    + rewrite own_set_same. reflexivity.
    + rewrite historyOf_snoc. unfold k, ranked.
      rewrite String.eqb_refl, Hrank. reflexivity.
    + intros kw Hne. rewrite own_set_other by exact Hne. now apply Hother1.
  - eexists. split; [reflexivity |].
    apply (Hrest _ (historyOf k pre)); [exact Hnd1 | exact Hown1 | | exact Hother1].
    rewrite historyOf_snoc. unfold k, ranked.
    rewrite String.eqb_refl, Hrank. simpl. now rewrite app_nil_r.
Qed.

Lemma reduce_collectStep_collected l :
  forall pre acc,
    collected pre acc ->
    ordinaryKeywords l ->
    validRanks l ->
    exists acc', reduce collectStep l acc = Returned acc' /\
                 collected (pre ++ l) acc'.
Proof.
  induction l as [|x l IH]; intros pre acc Hinv Hord Hvalid; simpl.
  - exists acc. split; [reflexivity | now rewrite app_nil_r].
  - destruct (collectStep_collected pre acc x Hinv) as (acc1 & -> & Hinv1).
    + apply Hord. now left.
    + intros n. apply Hvalid. now left.
    + replace (pre ++ x :: l)%list with ((pre ++ [x]) ++ l)%list
        by (rewrite <- app_assoc; reflexivity).
      apply IH; [exact Hinv1 | |].
      * intros r Hr. apply Hord. now right.
      * intros r n Hr. apply (Hvalid r n). now right.
Qed.

Lemma own_map_values {V W : Type} (f : V -> W) (o : Js.object V) (k : string) :
  Js.own (map (fun kv => (fst kv, f (snd kv))) o) k = option_map f (Js.own o k).
Proof.
  induction o as [|[k' v] o IH]; simpl; [reflexivity |].
  destruct (String.eqb k k'); [reflexivity | exact IH].
Qed.

(** The statistics of a summary that has collected the history [h] of
    ranked records. *)
Lemma statistics_collecting (h : list HistoryEntry) :
  (forall e, In e h -> exists n, h_rank e = Some n) ->
  let data := statistics (collecting h) in
  history data = Js.sort byHistoryDateDesc h /\
  Permutation (history data) h /\
  recentFirst (history data) /\
  match history data with
  | [] => current data = None /\ best data = None /\ worst data = None
  | latest :: _ =>
      current data = h_rank latest /\
      exists lo hi,
        best data = Some lo /\ worst data = Some hi /\
        In (Some lo) (map h_rank h) /\ In (Some hi) (map h_rank h) /\
        forall e n, In e h -> h_rank e = Some n -> lo <= n <= hi
  end.
Proof.
  intros Hranked data. subst data. unfold statistics, collecting.
  cbn [history].
  assert (Hperm := sort_perm byHistoryDateDesc h).
  assert (Hsorted : recentFirst (Js.sort byHistoryDateDesc h))
    by exact (sort_sorted date h).
  destruct h as [|e0 h'] eqn:Hh.
  { simpl. repeat split; constructor. }
  rewrite <- Hh in *.
  destruct (Z.ltb_spec 0 (Z.of_nat (length h))) as [_ | Hlen];
    [| subst h; simpl in Hlen; lia].
  destruct (Js.sort byHistoryDateDesc h) as [|latest rest] eqn:Hs.
  { apply sort_nil_inv in Hs. congruence. }
  cbn [map nth_error history current best worst].
  split; [reflexivity | split; [exact Hperm | split; [exact Hsorted |]]].
  split; [reflexivity |].
  set (ns := map (fun e => Js.to_number (h_rank e)) (latest :: rest)).
  assert (Hns : forall n, In n ns <-> In (Some n) (map h_rank h)).
  { intros n. unfold ns. rewrite !in_map_iff. split.
    - intros (e & <- & He). exists e.
      apply (Permutation_in _ Hperm) in He.
      destruct (Hranked e He) as [m Hm]. rewrite Hm. now split.
    - intros (e & He & Hin). exists e.
      split; [now rewrite He |].
      apply (Permutation_in _ (Permutation_sym Hperm)). exact Hin. }
  destruct (math_min_fold (map (fun e => Js.to_number (h_rank e)) rest)
                          (Js.to_number (h_rank latest))) as [Hlo_in Hlo].
  destruct (math_max_fold (map (fun e => Js.to_number (h_rank e)) rest)
                          (Js.to_number (h_rank latest))) as [Hhi_in Hhi].
  eexists; eexists. split; [reflexivity | split; [reflexivity |]].
  split; [apply Hns; exact Hlo_in | split; [apply Hns; exact Hhi_in |]].
  intros e n He Hn.
  assert (Hin : In n ns).
  { apply Hns. apply in_map_iff. exists e. now split. }
  split; [apply Hlo | apply Hhi]; exact Hin.
Qed.

(** For keywords that are not inherited property names and ranks of the
    data model, [getKeywordSummary] returns, for every keyword of the store,
    the summary of the claim: history of the ranked records most recent
    first, current rank, minimum and maximum; and null statistics with an
    empty history when no record of the keyword is ranked. *)
Lemma getKeywordSummary_ordinary_keywords rs w :
  resultsFile w = Rankings rs ->
  ordinaryKeywords rs ->
  validRanks rs ->
  exists summary,
    getKeywordSummary w = (Returned summary, w) /\
    forall kw,
      match recordsOf kw rs with
      | [] => Js.own summary kw = None
      | _ =>
          exists data,
            Js.own summary kw = Some data /\
            history data = Js.sort byHistoryDateDesc (historyOf kw rs) /\
            Permutation (history data) (historyOf kw rs) /\
            recentFirst (history data) /\
            match history data with
            | [] => current data = None /\ best data = None /\
                    worst data = None
            | latest :: _ =>
                current data = h_rank latest /\
                exists lo hi,
                  best data = Some lo /\ worst data = Some hi /\
                  In (Some lo) (map h_rank (historyOf kw rs)) /\
                  In (Some hi) (map h_rank (historyOf kw rs)) /\
                  forall e n, In e (historyOf kw rs) ->
                              h_rank e = Some n -> lo <= n <= hi
            end
      end.
Proof.
  intros Hfile Hord Hvalid.
  destruct (reduce_collectStep_collected rs [] []) as (acc & Hred & Hinv);
    [split; [constructor | reflexivity] | exact Hord | exact Hvalid |].
  simpl in Hinv. destruct Hinv as [_ Hown].
  eexists. split.
  - unfold getKeywordSummary, try_catch, bind, readRankings, await, ret.
    rewrite Hfile, Hred. reflexivity.
  - intros kw. rewrite own_map_values, Hown.
    destruct (recordsOf kw rs) as [|r0 rest] eqn:Hrec; [reflexivity |].
    exists (statistics (collecting (historyOf kw rs))).
    split; [reflexivity |].
    apply statistics_collecting. apply historyOf_ranked.
Qed.

(** Ranks 9, 2 and 7 recorded in that order: the current rank is 7, the
    best 2 and the worst 9. *)
Example getKeywordSummary_7_2_9 :
  fst (getKeywordSummary (storeOf [rankedRecord "laravel" 9 1000;
                                   rankedRecord "laravel" 2 2000;
                                   notFoundRecord "php" 2500;
                                   rankedRecord "laravel" 7 3000]))
  = Returned
      [("laravel",
        {| current := Some 7; best := Some 2; worst := Some 9;
           history := [ {| h_rank := Some 7; date := 3000 |};
                        {| h_rank := Some 2; date := 2000 |};
                        {| h_rank := Some 9; date := 1000 |} ] |});
       ("php",
        {| current := None; best := None; worst := None; history := [] |})].
Proof. vm_compute. reflexivity. Qed.

(** C4: a keyword that is also a property name of [Object.prototype] is
    not summarised.  With only null ranks the returned object has no entry
    of its own for the keyword; with a ranked record the call throws. *)
Theorem getKeywordSummary_inherited_keyword :
  getKeywordSummary (storeOf [notFoundRecord "constructor" 1000])
  = (Returned [], storeOf [notFoundRecord "constructor" 1000]) /\
  getKeywordSummary (storeOf [rankedRecord "constructor" 3 1000])
  = (Thrown (Err "Cannot read properties of undefined (reading 'push')"),
     addLog (storeOf [rankedRecord "constructor" 3 1000])
            (Error, "Failed to get keyword summary: "
                    ++ "Cannot read properties of undefined (reading 'push')")).
Proof. split; vm_compute; reflexivity. Qed.

End KeywordSummary.

(* ------------------------------------------------------------------------- *)
(** ** Further properties of the analyzer *)

Section AnalyzerMore.
Import Analyzer.

(** Runs the monadic operations of the analyzer one step at a time. *)
Ltac run_analyzer :=
  cbv beta iota zeta delta
      [try_catch bind await ret throw
       readRankings writeRankings writeRecords log console_log put_file
       resultsFile logged console csvFiles].

Lemma lastOf_snoc {A : Type} (l : list A) (x : A) : lastOf (l ++ [x]) = Some x.
Proof. unfold lastOf. now rewrite rev_app_distr. Qed.



(** *** What the reports leave alone *)

Lemma keepsStore_bind {A B : Type} (c : M World A) (k : A -> M World B) :
  keepsStore c -> (forall a, keepsStore (k a)) -> keepsStore (bind c k).
Proof.
  intros Hc Hk w. unfold bind. specialize (Hc w).
  destruct (c w) as [[a | e] s']; cbn [snd] in *.
  - rewrite (Hk a s'). exact Hc.
  - exact Hc.
Qed.

Lemma keepsStore_try_catch {A : Type} (body : M World A)
      (handler : exn -> M World A) :
  keepsStore body -> (forall e, keepsStore (handler e)) ->
  keepsStore (try_catch body handler).
Proof.
  intros Hb Hh w. unfold try_catch. specialize (Hb w).
  destruct (body w) as [[a | e] s']; cbn [snd] in *.
  - exact Hb.
  - rewrite (Hh e s'). exact Hb.
Qed.

Lemma keepsStore_log l msg : keepsStore (log l msg).
Proof. intros w. reflexivity. Qed.

Lemma keepsStore_console_log line : keepsStore (console_log line).
Proof. intros w. reflexivity. Qed.

Lemma keepsStore_ret {A : Type} (a : A) : keepsStore (ret a).
Proof. intros w. reflexivity. Qed.

Lemma keepsStore_throw {A : Type} (e : exn) : keepsStore (@throw World A e).
Proof. intros w. reflexivity. Qed.

Lemma keepsStore_await {A : Type} (o : outcome A) : keepsStore (await o).
Proof. intros w. reflexivity. Qed.

Lemma keepsStore_readRankings : keepsStore readRankings.
Proof. intros [[why | why | rs] logs out files]; reflexivity. Qed.

Lemma keepsStore_writeRecords env rankings : keepsStore (writeRecords env rankings).
Proof. intros w. unfold writeRecords. now destruct (writeRecords_fault env). Qed.

Lemma keepsStore_forEach {A : Type} (f : A -> M World unit) (l : list A) :
  (forall x, keepsStore (f x)) -> keepsStore (forEach f l).
Proof.
  intros Hf. induction l as [|x l IH]; simpl.
  - apply keepsStore_ret.
  - apply keepsStore_bind; [apply Hf | intros _; exact IH].
Qed.

Lemma keepsStore_reportGroup kw results : keepsStore (reportGroup kw results).
Proof.
  unfold reportGroup.
  apply keepsStore_bind; [apply keepsStore_console_log | intros _].
  apply keepsStore_bind; [apply keepsStore_console_log | intros _].
  destruct (nth_error (Js.sort byDateDesc results) 0) as [latest |];
    [| apply keepsStore_throw].
  apply keepsStore_bind; [apply keepsStore_console_log | intros _].
  apply keepsStore_bind.
  { destruct (Js.truthy (rank latest)); [| apply keepsStore_ret].
    apply keepsStore_bind; [apply keepsStore_console_log | intros _].
    apply keepsStore_console_log. }
  intros _. apply keepsStore_bind; [| intros _; apply keepsStore_console_log].
  destruct (1 <? Z.of_nat (length (Js.sort byDateDesc results)));
    [| apply keepsStore_ret].
  destruct (nth_error (Js.sort byDateDesc results) 1);
    [apply keepsStore_console_log | apply keepsStore_throw].
Qed.

Lemma keepsStore_generateReport env format :
  keepsStore (generateReport env format).
Proof.
  unfold generateReport.
  apply keepsStore_try_catch.
  - apply keepsStore_bind; [apply keepsStore_readRankings | intros rankings].
    destruct (Z.of_nat (length rankings) =? 0); [apply keepsStore_log |].
    apply keepsStore_bind; [apply keepsStore_await | intros groups].
    destruct (String.eqb format "csv").
    + apply keepsStore_bind; [apply keepsStore_writeRecords | intros _].
      apply keepsStore_log.
    + apply keepsStore_bind; [apply keepsStore_console_log | intros _].
      apply keepsStore_bind; [apply keepsStore_console_log | intros _].
      apply keepsStore_forEach. intros kv. apply keepsStore_reportGroup.
  - intros e. apply keepsStore_bind; [apply keepsStore_log | intros _].
    apply keepsStore_throw.
Qed.

Lemma keepsStore_getKeywordSummary : keepsStore getKeywordSummary.
Proof.
  unfold getKeywordSummary.
  apply keepsStore_try_catch.
  - apply keepsStore_bind; [apply keepsStore_readRankings | intros rankings].
    apply keepsStore_bind; [apply keepsStore_await | intros summary].
    apply keepsStore_ret.
  - intros e. apply keepsStore_bind; [apply keepsStore_log | intros _].
    apply keepsStore_throw.
Qed.

(** Neither report ever changes the results file: whatever the format, the
    environment and the way the call ends (also when it throws),
    [generateReport] and [getKeywordSummary] leave the store as it was. *)
Theorem reports_keep_store env format w :
  resultsFile (snd (generateReport env format w)) = resultsFile w /\
  resultsFile (snd (getKeywordSummary w)) = resultsFile w.
Proof.
  split; [apply keepsStore_generateReport | apply keepsStore_getKeywordSummary].
Qed.

(** *** The CSV report *)

Lemma reduce_groupStep_ordinary l :
  forall acc,
    ordinaryKeywords l ->
    exists groups, reduce groupStep l acc = Returned groups.
Proof.
  induction l as [|x l IH]; intros acc Hord; simpl.
  - now exists acc.
  - assert (Hx : Js.inherited (keyword x) = false) by (apply Hord; now left).
    unfold groupStep at 1, Js.get. rewrite Hx.
    destruct (Js.own acc (keyword x));
      apply IH; intros r Hr; apply Hord; now right.
Qed.

(** On a store that is not empty and has no keyword named like an inherited
    property, the CSV report writes one file, named after the clock, holding
    all the records in store order, logs where it went and prints nothing. *)
Theorem generateReport_csv env w rs :
  resultsFile w = Rankings rs ->
  rs <> [] ->
  ordinaryKeywords rs ->
  writeRecords_fault env = None ->
  generateReport env "csv" w
  = (Returned tt,
     {| resultsFile := resultsFile w;
        logged := logged w
                  ++ [(Info, ("CSV report generated at " ++ csvPath env)%string)];
        console := console w;
        csvFiles := csvFiles w
                    ++ [(("rankings_" ++ Js.string_of_number (now env)
                          ++ ".csv")%string, rs)] |}).
Proof.
  intros Hfile Hne Hord Hcsv.
  destruct (reduce_groupStep_ordinary rs [] Hord) as [groups Hby].
  destruct w as [file logs out files]. cbn [resultsFile] in Hfile. subst file.
  unfold generateReport, byKeyword.
  run_analyzer. rewrite Hby.
  destruct (Z.eqb_spec (Z.of_nat (length rs)) 0) as [Hz | _].
  { destruct rs; [contradiction | simpl in Hz; lia]. }
  cbn [String.eqb Ascii.eqb Bool.eqb]. cbv beta iota.
  rewrite Hcsv. reflexivity.
Qed.

Lemma generateReport_csv_witness :
  exists w',
    generateReport (sampleEnv 5000) "csv" (storeOf sampleStore)
    = (Returned tt, w') /\
    csvFiles w' = [("rankings_5000.csv", sampleStore)] /\
    console w' = [].
Proof.
  eexists. split.
  - apply (generateReport_csv (sampleEnv 5000) (storeOf sampleStore) sampleStore);
      [reflexivity | discriminate | | reflexivity].
    intros r [<- | [<- | [<- | [<- | []]]]]; reflexivity.
  - split; vm_compute; reflexivity.
Defined.

Lemma sampleStore_ordinary : ordinaryKeywords sampleStore.
Proof. intros r [<- | [<- | [<- | [<- | []]]]]; reflexivity. Qed.

Lemma sampleStore_valid : validRanks sampleStore.
Proof.
  intros r n [<- | [<- | [<- | [<- | []]]]]; simpl; intros [= <-]; lia.
Qed.

(** *** The console report is a function of the store *)

(** The lines of the console report depend on the store only, not on the
    clock or on what was printed before: two calls in a row, made in any
    environments, append the same lines twice. *)
Theorem console_report_repeatable env1 env2 w rs :
  resultsFile w = Rankings rs ->
  rs <> [] ->
  ordinaryKeywords rs ->
  exists lines,
    generateReport env1 "console" w = (Returned tt, addConsole w lines) /\
    generateReport env2 "console" (addConsole w lines)
    = (Returned tt, addConsole (addConsole w lines) lines) /\
    lines <> [].
Proof.
  intros Hfile Hne Hord.
  destruct (reduce_groupStep_ordinary rs [] Hord) as [groups Hby].
  eexists. split; [| split].
  - exact (generateReport_console env1 "console" w rs groups
                                  Hfile Hne Hby eq_refl).
  - apply (generateReport_console env2 "console" (addConsole w _) rs groups);
      [exact Hfile | exact Hne | exact Hby | reflexivity].
  - discriminate.
Qed.

Lemma console_report_repeatable_witness :
  exists lines,
    generateReport (sampleEnv 5000) "console" (storeOf sampleStore)
    = (Returned tt, addConsole (storeOf sampleStore) lines) /\
    generateReport (sampleEnv 6000) "console"
                   (addConsole (storeOf sampleStore) lines)
    = (Returned tt, addConsole (addConsole (storeOf sampleStore) lines) lines).
Proof.
  destruct (console_report_repeatable
              (sampleEnv 5000) (sampleEnv 6000) (storeOf sampleStore)
              sampleStore eq_refl ltac:(discriminate) sampleStore_ordinary)
    as (lines & H1 & H2 & _).
  exists lines. split; assumption.
Defined.

(** *** Keywords named like inherited properties *)

Lemma groupStep_noInheritedOwn acc x acc' :
  noInheritedOwn acc ->
  groupStep acc x = Returned acc' ->
  noInheritedOwn acc'.
Proof.
  intros Hinv Hstep k Hk. unfold groupStep, Js.get in Hstep.
  assert (Hne : Js.inherited (keyword x) = false -> k <> keyword x)
    by (intros Hx ->; congruence).
  destruct (Js.own acc (keyword x)) as [g |] eqn:Hown.
  - injection Hstep as <-.
    destruct (Js.inherited (keyword x)) eqn:Hx.
    + rewrite (Hinv _ Hx) in Hown. discriminate.
    + rewrite own_set_other by (now apply Hne). now apply Hinv.
  - destruct (Js.inherited (keyword x)) eqn:Hx; [discriminate |].
    injection Hstep as <-.
    rewrite own_set_other by (now apply Hne). now apply Hinv.
Qed.

Lemma reduce_groupStep_inherited l :
  forall acc,
    noInheritedOwn acc ->
    (exists r, In r l /\ Js.inherited (keyword r) = true) ->
    exists e, reduce groupStep l acc = Thrown e.
Proof.
  induction l as [|x l IH]; intros acc Hinv (r & Hin & Hr); [destruct Hin |].
  simpl. destruct (groupStep acc x) as [acc' | e] eqn:Hstep; [| now exists e].
  apply IH; [exact (groupStep_noInheritedOwn acc x acc' Hinv Hstep) |].
  exists r. split; [| exact Hr].
  destruct Hin as [<- | Hin]; [| exact Hin].
  exfalso. unfold groupStep, Js.get in Hstep.
  rewrite (Hinv _ Hr), Hr in Hstep. discriminate.
Qed.

(** A store that holds a record whose keyword is named like a property
    inherited from [Object.prototype] ('constructor', 'toString', ...)
    cannot be reported: for every format [generateReport] throws, having
    logged the failure, printed nothing and written no CSV file. *)
Theorem generateReport_inherited_keyword env format w rs :
  resultsFile w = Rankings rs ->
  (exists r, In r rs /\ Js.inherited (keyword r) = true) ->
  exists e,
    generateReport env format w
    = (Thrown e,
       addLog w (Error, ("Failed to generate report: " ++ message e)%string)).
Proof.
  intros Hfile Hbad.
  destruct (reduce_groupStep_inherited rs [] (fun k _ => eq_refl) Hbad)
    as [e Hby].
  exists e. destruct w as [file logs out files].
  cbn [resultsFile] in Hfile. subst file.
  unfold generateReport, byKeyword, addLog.
  run_analyzer. rewrite Hby.
  destruct (Z.eqb_spec (Z.of_nat (length rs)) 0) as [Hz | _]; [| reflexivity].
  destruct Hbad as (r & Hin & _). destruct rs; [destruct Hin | simpl in Hz; lia].
Qed.

Lemma generateReport_inherited_keyword_witness :
  exists e,
    generateReport (sampleEnv 5000) "csv"
                   (storeOf [rankedRecord "laravel" 3 1000;
                             notFoundRecord "toString" 2000])
    = (Thrown e,
       addLog (storeOf [rankedRecord "laravel" 3 1000;
                        notFoundRecord "toString" 2000])
              (Error, ("Failed to generate report: " ++ message e)%string)).
Proof.
  apply (generateReport_inherited_keyword
           (sampleEnv 5000) "csv"
           (storeOf [rankedRecord "laravel" 3 1000;
                     notFoundRecord "toString" 2000])
           [rankedRecord "laravel" 3 1000; notFoundRecord "toString" 2000]
           eq_refl).
  exists (notFoundRecord "toString" 2000).
  split; [right; now left | reflexivity].
Defined.

(** *** Summaries after a save *)

Lemma getKeywordSummary_ordinary_keywords_witness :
  ordinaryKeywords sampleStore /\
  validRanks sampleStore /\
  exists summary data,
    getKeywordSummary (storeOf sampleStore)
    = (Returned summary, storeOf sampleStore) /\
    Js.own summary "laravel" = Some data /\
    history data
    = Js.sort byHistoryDateDesc (historyOf "laravel" sampleStore) /\
    recentFirst (history data).
Proof.
  split; [exact sampleStore_ordinary | split; [exact sampleStore_valid |]].
  destruct (getKeywordSummary_ordinary_keywords
              sampleStore (storeOf sampleStore) eq_refl
              sampleStore_ordinary sampleStore_valid)
    as (summary & Hrun & Hkw).
  specialize (Hkw "laravel").
  change (recordsOf "laravel" sampleStore)
    with [rankedRecord "laravel" 9 1000; rankedRecord "laravel" 2 2000;
          rankedRecord "laravel" 7 3000] in Hkw.
  cbv beta iota in Hkw.
  destruct Hkw as (data & Hown & Hhist & _ & Hsorted & _).
  exists summary, data. repeat split; assumption.
Defined.









(** *** [initialize] *)

(** [initialize] changes the results file only when the directory could be
    made and [fs.access] rejected; in every other case, failures included,
    the file is left as it was. *)
Theorem initialize_touches_store_only_if_inaccessible ienv w :
  resultsFile (snd (initialize ienv w)) <> resultsFile w ->
  mkdir ienv = Returned tt /\ exists e, access ienv = Thrown e.
Proof.
  destruct w as [file logs out files].
  unfold initialize. run_analyzer.
  destruct (mkdir ienv) as [[] | e]; cbv beta iota.
  - destruct (access ienv) as [[] | e]; cbv beta iota.
    + intros H. now contradiction H.
    + intros _. split; [reflexivity | now exists e].
  - intros H. now contradiction H.
Qed.

Lemma initialize_touches_store_only_if_inaccessible_witness :
  resultsFile (snd (initialize freshInstall noStore)) = Rankings [] /\
  mkdir freshInstall = Returned tt /\
  exists e, access freshInstall = Thrown e.
Proof.
  split; [reflexivity |].
  apply (initialize_touches_store_only_if_inaccessible freshInstall noStore).
  discriminate.
Defined.

(** On a fresh installation [initialize] creates the empty store, and the
    first [saveResults] after it succeeds and leaves a store of exactly one
    record, for the keyword searched. *)
Theorem initialize_then_first_save ienv env kw results w :
  mkdir ienv = Returned tt ->
  (exists e, access ienv = Thrown e) ->
  writeFile_fault (create ienv) = None ->
  writeFile_fault env = None ->
  exists w1 w2 r,
    initialize ienv w = (Returned tt, w1) /\
    resultsFile w1 = Rankings [] /\
    logged w1 = logged w /\
    saveResults env kw results w1 = (Returned tt, w2) /\
    resultsFile w2 = Rankings [r] /\
    keyword r = kw /\ timestamp r = now env.
Proof.
  intros Hmkdir [e Haccess] Hcreate Hwrite.
  destruct w as [file logs out files].
  assert (Hinit : initialize ienv {| resultsFile := file; logged := logs;
                                     console := out; csvFiles := files |}
                  = (Returned tt, {| resultsFile := Rankings []; logged := logs;
                                     console := out; csvFiles := files |})).
  { unfold initialize. run_analyzer. rewrite Hmkdir. cbv beta iota.
    rewrite Haccess. cbv beta iota. rewrite Hcreate. reflexivity. }
  set (w1 := {| resultsFile := Rankings []; logged := logs;
                console := out; csvFiles := files |}) in *.
  destruct (findRanking_spec results 0) as [(i & m & Hfirst & _) | [Hnone _]].
  - eexists w1, _, (foundRecord kw (now env) i m).
    split; [exact Hinit | split; [reflexivity | split; [reflexivity |]]].
    split; [exact (saveResults_found env kw results w1 [] i m
                                     eq_refl Hwrite Hfirst) |].
    repeat split.
  - eexists w1, _, (notFoundRecord kw (now env)).
    split; [exact Hinit | split; [reflexivity | split; [reflexivity |]]].
    split; [exact (saveResults_absent env kw results w1 [] eq_refl Hwrite Hnone) |].
    repeat split.
Qed.

Lemma initialize_then_first_save_witness :
  exists w1 w2 r,
    initialize freshInstall noStore = (Returned tt, w1) /\
    saveResults (sampleEnv 1000) "laravel" sampleResults w1 = (Returned tt, w2) /\
    resultsFile w2 = Rankings [r] /\
    keyword r = "laravel".
Proof.
  destruct (initialize_then_first_save
              freshInstall (sampleEnv 1000) "laravel" sampleResults noStore
              eq_refl (ex_intro _ _ eq_refl) eq_refl eq_refl)
    as (w1 & w2 & r & Hinit & _ & _ & Hsave & Hfile & Hkw & _).
  exists w1, w2, r. repeat split; assumption.
Defined.

End AnalyzerMore.

(* ------------------------------------------------------------------------- *)
(** ** Further properties of the searcher *)

Section SearcherMore.
Import Searcher.

(** Runs the monadic operations of the searcher one step at a time. *)
Ltac run_searcher :=
  cbv beta iota zeta delta
      [bind try_catch try_finally await ret throw
       call log get set_results set_page set_browser initialize setupPage
       browser results page logged calls].

Lemma pagesFrom_bounds (n : nat) :
  forall p q, In q (pagesFrom p n) -> p <= q < p + Z.of_nat n.
Proof.
  induction n as [|n IH]; intros p q; simpl; [tauto |].
  intros [<- | Hin]; [lia |]. apply IH in Hin. lia.
Qed.

Lemma pagesFrom_snoc (n : nat) :
  forall p, pagesFrom p (S n) = (pagesFrom p n ++ [p + Z.of_nat n])%list.
Proof.
  induction n as [|n IH]; intros p.
  - simpl. f_equal. lia.
  - change (pagesFrom p (S (S n))) with (p :: pagesFrom (p + 1) (S n)).
    rewrite IH. simpl. do 3 f_equal. lia.
Qed.

(** One page that loads: its items are appended to [results]. *)
Lemma searchPage_loads env kw numPages items q s :
  pageLoads env items q ->
  exists s',
    searchPage env kw numPages q s = (Returned tt, s') /\
    results s' = (results s ++ items q)%list /\
    browser s' = browser s /\ page s' = page s.
Proof.
  intros (Hgoto & Hcaptcha & Heval). destruct s as [b r p l c].
  unfold searchPage. run_searcher.
  rewrite Hgoto, Hcaptcha, Heval. cbv beta iota.
  destruct (q <? numPages - 1); cbv beta iota;
    eexists; (split; [reflexivity |]); repeat split.
Qed.

Lemma searchPages_load env kw numPages items (n : nat) :
  forall p s,
    (forall q, In q (pagesFrom p n) -> pageLoads env items q) ->
    exists s',
      searchPages env kw numPages n p s = (Returned tt, s') /\
      results s' = (results s ++ flat_map items (pagesFrom p n))%list /\
      browser s' = browser s /\ page s' = page s.
Proof.
  induction n as [|n IH]; intros p s Hload.
  - exists s. simpl. rewrite app_nil_r. repeat split.
  - destruct (searchPage_loads env kw numPages items p s) as
      (s1 & Hrun1 & Hres1 & Hb1 & Hp1); [apply Hload; now left |].
    destruct (IH (p + 1) s1) as (s2 & Hrun2 & Hres2 & Hb2 & Hp2);
      [intros q Hq; apply Hload; now right |].
    exists s2. cbn [searchPages pagesFrom flat_map]. unfold bind.
    rewrite Hrun1, Hrun2.
    split; [reflexivity |].
    split; [rewrite Hres2, Hres1, app_assoc; reflexivity |].
    split; congruence.
Qed.

(** The first [k] pages load and the navigation to the next one fails: the
    loop stops there with the items of the pages that loaded. *)
Lemma searchPages_fail env kw numPages items e (k : nat) :
  forall n p s,
    (k < n)%nat ->
    (forall q, In q (pagesFrom p k) -> pageLoads env items q) ->
    goto env (p + Z.of_nat k) = Thrown e ->
    exists s',
      searchPages env kw numPages n p s = (Thrown e, s') /\
      results s' = (results s ++ flat_map items (pagesFrom p k))%list /\
      browser s' = browser s /\ page s' = page s.
Proof.
  induction k as [|k IH]; intros n p s Hlt Hload Hfail.
  - destruct n as [|n]; [lia |]. destruct s as [b r pg l c].
    cbn [searchPages]. unfold searchPage. run_searcher.
    replace (p + Z.of_nat 0) with p in Hfail by lia.
    rewrite Hfail. cbv beta iota. eexists. split; [reflexivity |].
    cbn [pagesFrom flat_map]. rewrite app_nil_r. repeat split.
  - destruct n as [|n]; [lia |].
    destruct (searchPage_loads env kw numPages items p s) as
      (s1 & Hrun1 & Hres1 & Hb1 & Hp1); [apply Hload; now left |].
    destruct (IH n (p + 1) s1) as (s2 & Hrun2 & Hres2 & Hb2 & Hp2).
    + lia.
    + intros q Hq. apply Hload. now right.
    + replace (p + 1 + Z.of_nat k) with (p + Z.of_nat (S k)) by lia.
      exact Hfail.
    + exists s2. cbn [searchPages pagesFrom flat_map]. unfold bind.
      rewrite Hrun1, Hrun2.
      split; [reflexivity |].
      split; [rewrite Hres2, Hres1, app_assoc; reflexivity |].
      split; congruence.
Qed.

(** When the browser can be had, a page opens, every page loads without a
    CAPTCHA form and the page closes, [search] returns the items of the
    pages 0 .. numPages-1, in page order, and the browser stays open for the
    next call. *)
Theorem search_collects_pages env kw numPages items s :
  (browser s = None -> launch env = Returned tt) ->
  pageOpens env ->
  (forall q, 0 <= q < numPages -> pageLoads env items q) ->
  pageClose env = Returned tt ->
  exists s',
    search env kw numPages s
    = (Returned (flat_map items (pagesFrom 0 (Z.to_nat numPages))), s') /\
    browser s' = Some Handle /\
    lastOf (calls s') = Some PageClose.
Proof.
  intros Hlaunch (Hnew & Hua & Hdoc) Hload Hclose.
  assert (Hpages : forall q, In q (pagesFrom 0 (Z.to_nat numPages)) ->
                             pageLoads env items q).
  { intros q Hq. apply Hload. apply pagesFrom_bounds in Hq. lia. }
  destruct s as [b r p l c]. cbn [browser] in Hlaunch.
  unfold search. run_searcher.
  destruct b as [[] |].
  - rewrite Hnew. cbv beta iota. rewrite Hua. cbv beta iota.
    rewrite Hdoc. cbv beta iota.
    match goal with
    | |- context [searchPages env kw numPages ?n ?p0 ?st] =>
        destruct (searchPages_load env kw numPages items n p0 st Hpages)
          as ([b1 r1 p1 l1 c1] & Hrun & Hres & Hb & Hp)
    end.
    cbn [browser results page] in Hres, Hb, Hp. subst b1 r1 p1.
    rewrite Hrun. cbv beta iota. rewrite Hclose. cbv beta iota.
    eexists. split; [reflexivity |]. split; [reflexivity |].
    apply lastOf_snoc.
  - rewrite (Hlaunch eq_refl). cbv beta iota.
    rewrite Hnew. cbv beta iota. rewrite Hua. cbv beta iota.
    rewrite Hdoc. cbv beta iota.
    match goal with
    | |- context [searchPages env kw numPages ?n ?p0 ?st] =>
        destruct (searchPages_load env kw numPages items n p0 st Hpages)
          as ([b1 r1 p1 l1 c1] & Hrun & Hres & Hb & Hp)
    end.
    cbn [browser results page] in Hres, Hb, Hp. subst b1 r1 p1.
    rewrite Hrun. cbv beta iota. rewrite Hclose. cbv beta iota.
    eexists. split; [reflexivity |]. split; [reflexivity |].
    apply lastOf_snoc.
Qed.

Lemma search_collects_pages_witness :
  exists s',
    search numberedPages "laravel" 3 idle
    = (Returned (numbered 0 ++ numbered 1 ++ numbered 2)%list, s') /\
    browser s' = Some Handle.
Proof.
  destruct (search_collects_pages numberedPages "laravel" 3 numbered idle)
    as (s' & Hrun & Hb & _).
  - reflexivity.
  - repeat split.
  - intros q _. repeat split.
  - reflexivity.
  - exists s'. split; [exact Hrun | exact Hb].
Defined.

(** The first [k] pages load and the navigation to page [k] fails: [search]
    logs 'Search failed: ...', closes the page and returns the items of the
    pages 0 .. k-1 only. *)
Theorem search_returns_partial_results env kw numPages items e (k : nat) s :
  (browser s = None -> launch env = Returned tt) ->
  pageOpens env ->
  Z.of_nat k < numPages ->
  (forall q, 0 <= q < Z.of_nat k -> pageLoads env items q) ->
  goto env (Z.of_nat k) = Thrown e ->
  pageClose env = Returned tt ->
  exists s',
    search env kw numPages s
    = (Returned (flat_map items (pagesFrom 0 k)), s') /\
    lastOf (logged s') = Some (Error, ("Search failed: " ++ message e)%string) /\
    lastOf (calls s') = Some PageClose /\
    browser s' = Some Handle.
Proof.
  intros Hlaunch (Hnew & Hua & Hdoc) Hlt Hload Hfail Hclose.
  assert (Hpages : forall q, In q (pagesFrom 0 k) -> pageLoads env items q).
  { intros q Hq. apply Hload. apply pagesFrom_bounds in Hq. lia. }
  assert (Hk : (k < Z.to_nat numPages)%nat) by lia.
  destruct s as [b r p l c]. cbn [browser] in Hlaunch.
  unfold search. run_searcher.
  destruct b as [[] |].
  - rewrite Hnew. cbv beta iota. rewrite Hua. cbv beta iota.
    rewrite Hdoc. cbv beta iota.
    match goal with
    | |- context [searchPages env kw numPages ?n ?p0 ?st] =>
        destruct (searchPages_fail env kw numPages items e k n p0 st
                                   Hk Hpages Hfail)
          as ([b1 r1 p1 l1 c1] & Hrun & Hres & Hb & Hp)
    end.
    cbn [browser results page] in Hres, Hb, Hp. subst b1 r1 p1.
    rewrite Hrun. cbv beta iota. rewrite Hclose. cbv beta iota.
    eexists. split; [reflexivity |].
    split; [apply lastOf_snoc | split; [apply lastOf_snoc | reflexivity]].
  - rewrite (Hlaunch eq_refl). cbv beta iota.
    rewrite Hnew. cbv beta iota. rewrite Hua. cbv beta iota.
    rewrite Hdoc. cbv beta iota.
    match goal with
    | |- context [searchPages env kw numPages ?n ?p0 ?st] =>
        destruct (searchPages_fail env kw numPages items e k n p0 st
                                   Hk Hpages Hfail)
          as ([b1 r1 p1 l1 c1] & Hrun & Hres & Hb & Hp)
    end.
    cbn [browser results page] in Hres, Hb, Hp. subst b1 r1 p1.
    rewrite Hrun. cbv beta iota. rewrite Hclose. cbv beta iota.
    eexists. split; [reflexivity |].
    split; [apply lastOf_snoc | split; [apply lastOf_snoc | reflexivity]].
Qed.

Lemma search_returns_partial_results_witness :
  exists s',
    search (failsAt 2) "laravel" 5 idle
    = (Returned (numbered 0 ++ numbered 1)%list, s') /\
    lastOf (logged s')
    = Some (Error, "Search failed: Navigation timeout of 30000 ms exceeded").
Proof.
  destruct (search_returns_partial_results
              (failsAt 2) "laravel" 5 numbered
              (Err "Navigation timeout of 30000 ms exceeded") 2 idle)
    as (s' & Hrun & Hlog & _).
  - reflexivity.
  - repeat split.
  - lia.
  - intros q Hq. unfold pageLoads, failsAt. cbn [goto captchaForm evaluate].
    destruct (Z.eqb_spec q 2) as [-> | _]; [simpl in Hq; lia | repeat split].
  - reflexivity.
  - reflexivity.
  - exists s'. split; [exact Hrun | exact Hlog].
Defined.

(** *** The calls of a search *)

Lemma searchPage_loads_calls env kw numPages items q s :
  pageLoads env items q ->
  exists s',
    searchPage env kw numPages q s = (Returned tt, s') /\
    calls s' = (calls s ++ pageCalls kw numPages q)%list /\
    browser s' = browser s /\ page s' = page s.
Proof.
  intros (Hgoto & Hcaptcha & Heval). destruct s as [b r p l c].
  unfold searchPage, pageCalls. run_searcher.
  rewrite Hgoto, Hcaptcha, Heval. cbv beta iota.
  destruct (q <? numPages - 1); cbv beta iota;
    eexists; (split; [reflexivity |]);
    cbv beta iota delta [calls browser page];
    (split; [rewrite <- !app_assoc; reflexivity | split; reflexivity]).
Qed.

Lemma searchPages_load_calls env kw numPages items (n : nat) :
  forall p s,
    (forall q, In q (pagesFrom p n) -> pageLoads env items q) ->
    exists s',
      searchPages env kw numPages n p s = (Returned tt, s') /\
      calls s' = (calls s
                  ++ flat_map (pageCalls kw numPages) (pagesFrom p n))%list /\
      browser s' = browser s /\ page s' = page s.
Proof.
  induction n as [|n IH]; intros p s Hload.
  - exists s. simpl. rewrite app_nil_r. repeat split.
  - destruct (searchPage_loads_calls env kw numPages items p s) as
      (s1 & Hrun1 & Hcalls1 & Hb1 & Hp1); [apply Hload; now left |].
    destruct (IH (p + 1) s1) as (s2 & Hrun2 & Hcalls2 & Hb2 & Hp2);
      [intros q Hq; apply Hload; now right |].
    exists s2. cbn [searchPages pagesFrom flat_map]. unfold bind.
    rewrite Hrun1, Hrun2.
    split; [reflexivity |].
    split; [rewrite Hcalls2, Hcalls1, app_assoc; reflexivity |].
    split; congruence.
Qed.

(** The calls of a search in which everything succeeds and no CAPTCHA form
    shows up, in order: the launch if there was no browser, the opening of
    the page, then for each page 0 .. numPages-1 a delay, the navigation to
    the results from [10 * page] on with a timeout of 30000 ms, the CAPTCHA
    check, the extraction and (except after the last page) another delay,
    and finally the closing of the page. *)
Theorem search_call_sequence env kw numPages items s :
  (browser s = None -> launch env = Returned tt) ->
  pageOpens env ->
  (forall q, 0 <= q < numPages -> pageLoads env items q) ->
  pageClose env = Returned tt ->
  calls (snd (search env kw numPages s))
  = (calls s
     ++ (match browser s with None => [Launch] | Some _ => [] end)
     ++ [NewPage; SetUserAgent; EvaluateOnNewDocument]
     ++ flat_map (pageCalls kw numPages) (pagesFrom 0 (Z.to_nat numPages))
     ++ [PageClose])%list.
Proof.
  intros Hlaunch (Hnew & Hua & Hdoc) Hload Hclose.
  assert (Hpages : forall q, In q (pagesFrom 0 (Z.to_nat numPages)) ->
                             pageLoads env items q).
  { intros q Hq. apply Hload. apply pagesFrom_bounds in Hq. lia. }
  destruct s as [b r p l c]. cbn [browser] in Hlaunch.
  unfold search. run_searcher.
  destruct b as [[] |].
  - rewrite Hnew. cbv beta iota. rewrite Hua. cbv beta iota.
    rewrite Hdoc. cbv beta iota.
    match goal with
    | |- context [searchPages env kw numPages ?n ?p0 ?st] =>
        destruct (searchPages_load_calls env kw numPages items n p0 st Hpages)
          as ([b1 r1 p1 l1 c1] & Hrun & Hcalls & Hb & Hp)
    end.
    cbn [browser calls page] in Hcalls, Hb, Hp. subst b1 c1 p1.
    rewrite Hrun. cbv beta iota. rewrite Hclose. cbv beta iota.
    cbn [snd]. rewrite <- !app_assoc. reflexivity.
  - rewrite (Hlaunch eq_refl). cbv beta iota.
    rewrite Hnew. cbv beta iota. rewrite Hua. cbv beta iota.
    rewrite Hdoc. cbv beta iota.
    match goal with
    | |- context [searchPages env kw numPages ?n ?p0 ?st] =>
        destruct (searchPages_load_calls env kw numPages items n p0 st Hpages)
          as ([b1 r1 p1 l1 c1] & Hrun & Hcalls & Hb & Hp)
    end.
    cbn [browser calls page] in Hcalls, Hb, Hp. subst b1 c1 p1.
    rewrite Hrun. cbv beta iota. rewrite Hclose. cbv beta iota.
    cbn [snd]. rewrite <- !app_assoc. reflexivity.
Qed.

Lemma search_call_sequence_witness :
  calls (snd (search numberedPages "laravel" 2 idle))
  = [Launch; NewPage; SetUserAgent; EvaluateOnNewDocument;
     Sleep; Goto "laravel" 0 30000; QueryCaptcha; Extract; Sleep;
     Sleep; Goto "laravel" 10 30000; QueryCaptcha; Extract;
     PageClose].
Proof.
  apply (search_call_sequence numberedPages "laravel" 2 numbered idle).
  - reflexivity.
  - repeat split.
  - intros q _. repeat split.
  - reflexivity.
Defined.

(** The only exception that can leave [search] is the one thrown by
    [page.close] in the [finally] block; every other failure ends in a
    normal return of the results accumulated so far, which are the value of
    the local [results]. *)
Theorem search_only_throws_from_page_close env kw numPages s :
  (exists s', search env kw numPages s = (Returned (results s'), s')) \/
  (exists e s', search env kw numPages s = (Thrown e, s') /\
                pageClose env = Thrown e /\ page s' <> None).
Proof. exact (search_outcome env kw numPages s). Qed.

(** A page that shows the CAPTCHA form: the loop body waits for a
    navigation with a timeout of 60000 ms and then extracts the results of
    the page, whether the wait ended by a navigation or by a timeout; the
    timeout, and only it, is logged as an error. *)
Theorem searchPage_captcha_continues env kw numPages pageNum s items :
  goto env pageNum = Returned tt ->
  captchaForm env pageNum = Returned true ->
  evaluate env pageNum = Returned items ->
  exists s' evs logs,
    searchPage env kw numPages pageNum s = (Returned tt, s') /\
    results s' = (results s ++ items)%list /\
    calls s' = (calls s ++ evs)%list /\
    In (WaitForNavigation 60000) evs /\
    logged s' = (logged s ++ logs)%list /\
    (In (Error, "Timeout waiting for CAPTCHA solution") logs
     <-> exists e, waitForNavigation env pageNum = Thrown e).
Proof.
  intros Hgoto Hcaptcha Heval. destruct s as [b r p l c].
  unfold searchPage. run_searcher.
  rewrite Hgoto, Hcaptcha. cbv beta iota.
  destruct (waitForNavigation env pageNum) as [[] | e]; cbv beta iota;
    rewrite Heval; cbv beta iota;
    destruct (pageNum <? numPages - 1); cbv beta iota;
    (eexists; eexists; eexists; split; [reflexivity |]);
    cbv beta iota delta [results logged calls];
    (split; [reflexivity |]);
    (split; [rewrite <- !app_assoc; reflexivity |]);
    (split; [cbn [In app]; intuition auto |]);
    (split; [rewrite <- !app_assoc; reflexivity |]);
    cbn [In app];
    (split;
     [ intros H;
       repeat match goal with
              | H : _ \/ _ |- _ => destruct H
              end;
       try discriminate; try contradiction; eexists; reflexivity
     | intros [e0 He0]; try discriminate He0; intuition auto ]).
Qed.

Lemma searchPage_captcha_continues_witness :
  exists s' evs logs,
    searchPage (captchaTimeout (numbered 0)) "laravel" 1 0 running
    = (Returned tt, s') /\
    results s' = numbered 0 /\
    calls s' = evs /\
    In (WaitForNavigation 60000) evs /\
    logged s' = logs /\
    In (Error, "Timeout waiting for CAPTCHA solution") logs.
Proof.
  destruct (searchPage_captcha_continues
              (captchaTimeout (numbered 0)) "laravel" 1 0 running (numbered 0)
              eq_refl eq_refl eq_refl)
    as (s' & evs & logs & Hrun & Hres & Hcalls & Hwait & Hlogged & Hlog).
  exists s', evs, logs. repeat split; try assumption.
  apply Hlog. eexists. reflexivity.
Defined.

(** *** One browser for all searches *)

Lemma keepsBrowser_bind {A B : Type} (c : M State A) (k : A -> M State B) :
  keepsBrowser c -> (forall a, keepsBrowser (k a)) -> keepsBrowser (bind c k).
Proof.
  intros Hc Hk s Hs. unfold bind.
  destruct (Hc s Hs) as (Hb & evs & Hcalls & Hevs).
  destruct (c s) as [[a | e] s1]; cbn [snd] in *.
  - destruct (Hk a s1) as (Hb' & evs' & Hcalls' & Hevs'); [congruence |].
    split; [congruence |].
    exists (evs ++ evs')%list. split.
    + rewrite Hcalls', Hcalls. now rewrite app_assoc.
    + apply Forall_app. now split.
  - split; [exact Hb |]. now exists evs.
Qed.

Lemma keepsBrowser_try_catch {A : Type} (body : M State A)
      (handler : exn -> M State A) :
  keepsBrowser body -> (forall e, keepsBrowser (handler e)) ->
  keepsBrowser (try_catch body handler).
Proof.
  intros Hb Hh s Hs. unfold try_catch.
  destruct (Hb s Hs) as (Hbr & evs & Hcalls & Hevs).
  destruct (body s) as [[a | e] s1]; cbn [snd] in *.
  - split; [exact Hbr |]. now exists evs.
  - destruct (Hh e s1) as (Hbr' & evs' & Hcalls' & Hevs'); [congruence |].
    split; [congruence |].
    exists (evs ++ evs')%list. split.
    + rewrite Hcalls', Hcalls. now rewrite app_assoc.
    + apply Forall_app. now split.
Qed.

Lemma keepsBrowser_try_finally {A : Type} (body : M State A)
      (final : M State unit) :
  keepsBrowser body -> keepsBrowser final ->
  keepsBrowser (try_finally body final).
Proof.
  intros Hb Hf s Hs. unfold try_finally.
  destruct (Hb s Hs) as (Hbr & evs & Hcalls & Hevs).
  destruct (body s) as [r s1]; cbn [snd] in *.
  destruct (Hf s1) as (Hbr' & evs' & Hcalls' & Hevs'); [congruence |].
  assert (Hgoal : browser (snd (final s1)) = browser s /\
                  exists evs0, calls (snd (final s1)) = (calls s ++ evs0)%list /\
                               Forall onPage evs0).
  { split; [congruence |].
    exists (evs ++ evs')%list. split.
    - rewrite Hcalls', Hcalls. now rewrite app_assoc.
    - apply Forall_app. now split. }
  destruct (final s1) as [[[] | e] s2]; exact Hgoal.
Qed.

Lemma keepsBrowser_still {A : Type} (m : M State A) :
  (forall s, browser (snd (m s)) = browser s /\ calls (snd (m s)) = calls s) ->
  keepsBrowser m.
Proof.
  intros H s _. destruct (H s) as [Hb Hc]. split; [exact Hb |].
  exists []. split; [now rewrite app_nil_r | constructor].
Qed.

Lemma keepsBrowser_log l msg : keepsBrowser (log l msg).
Proof. apply keepsBrowser_still. intros s. split; reflexivity. Qed.

Lemma keepsBrowser_ret {A : Type} (a : A) : keepsBrowser (ret a).
Proof. apply keepsBrowser_still. intros s. split; reflexivity. Qed.

Lemma keepsBrowser_throw {A : Type} (e : exn) : keepsBrowser (@throw State A e).
Proof. apply keepsBrowser_still. intros s. split; reflexivity. Qed.

Lemma keepsBrowser_get {A : Type} (f : State -> A) : keepsBrowser (get f).
Proof. apply keepsBrowser_still. intros s. split; reflexivity. Qed.

Lemma keepsBrowser_set_results r : keepsBrowser (set_results r).
Proof. apply keepsBrowser_still. intros s. split; reflexivity. Qed.

Lemma keepsBrowser_set_page p : keepsBrowser (set_page p).
Proof. apply keepsBrowser_still. intros s. split; reflexivity. Qed.

Lemma keepsBrowser_call {A : Type} (ev : Event) (o : outcome A) :
  onPage ev -> keepsBrowser (call ev o).
Proof.
  intros Hev s _. split; [reflexivity |].
  exists [ev]. split; [reflexivity | now constructor].
Qed.

Ltac on_page := split; discriminate.

Lemma keepsBrowser_searchPage env kw numPages pageNum :
  keepsBrowser (searchPage env kw numPages pageNum).
Proof.
  unfold searchPage.
  apply keepsBrowser_bind; [apply keepsBrowser_log | intros _].
  apply keepsBrowser_bind; [apply keepsBrowser_call; on_page | intros _].
  apply keepsBrowser_bind; [apply keepsBrowser_call; on_page | intros _].
  apply keepsBrowser_bind; [apply keepsBrowser_call; on_page | intros captcha].
  apply keepsBrowser_bind.
  { destruct captcha; [| apply keepsBrowser_ret].
    apply keepsBrowser_bind; [apply keepsBrowser_log | intros _].
    apply keepsBrowser_try_catch;
      [apply keepsBrowser_call; on_page | intros _; apply keepsBrowser_log]. }
  intros _.
  apply keepsBrowser_bind; [apply keepsBrowser_call; on_page | intros items].
  apply keepsBrowser_bind; [apply keepsBrowser_get | intros r].
  apply keepsBrowser_bind; [apply keepsBrowser_set_results | intros _].
  apply keepsBrowser_bind; [apply keepsBrowser_log | intros _].
  destruct (pageNum <? numPages - 1); [| apply keepsBrowser_ret].
  apply keepsBrowser_bind; [apply keepsBrowser_log | intros _].
  apply keepsBrowser_call; on_page.
Qed.

Lemma keepsBrowser_searchPages env kw numPages (n : nat) :
  forall pageNum, keepsBrowser (searchPages env kw numPages n pageNum).
Proof.
  induction n as [|n IH]; intros pageNum; simpl.
  - apply keepsBrowser_ret.
  - apply keepsBrowser_bind; [apply keepsBrowser_searchPage | intros _; apply IH].
Qed.

Lemma keepsBrowser_setupPage env : keepsBrowser (setupPage env).
Proof.
  unfold setupPage.
  apply keepsBrowser_bind; [apply keepsBrowser_get | intros b].
  destruct b; [| apply keepsBrowser_throw].
  apply keepsBrowser_bind; [apply keepsBrowser_call; on_page | intros _].
  apply keepsBrowser_bind; [apply keepsBrowser_call; on_page | intros _].
  apply keepsBrowser_bind; [apply keepsBrowser_call; on_page | intros _].
  apply keepsBrowser_ret.
Qed.

Lemma keepsBrowser_ensure env {A : Type} (rest : M State A) :
  keepsBrowser rest ->
  keepsBrowser (bind (get browser)
                     (fun b => bind (match b with
                                     | None => initialize env
                                     | Some _ => ret tt
                                     end)
                                    (fun _ => rest))).
Proof.
  intros Hrest s Hs.
  destruct (browser s) as [h |] eqn:Hb; [| contradiction].
  match goal with
  | |- context [snd (?m s)] =>
      assert (Heq : m s = bind (ret tt) (fun _ => rest) s)
  end.
  { cbv beta iota delta [bind get ret]. rewrite Hb. reflexivity. }
  rewrite Heq, <- Hb.
  apply (keepsBrowser_bind (ret tt) (fun _ => rest));
    [apply keepsBrowser_ret | intros _; exact Hrest | congruence].
Qed.

(** A searcher that has a browser keeps it: whatever happens during
    [search], [this.browser] is the same afterwards, no second browser is
    launched and the browser is not closed. *)
Theorem search_reuses_browser env kw numPages s :
  browser s <> None ->
  browser (snd (search env kw numPages s)) = browser s /\
  exists evs,
    calls (snd (search env kw numPages s)) = (calls s ++ evs)%list /\
    ~ In Launch evs /\ ~ In BrowserClose evs.
Proof.
  intros Hs.
  assert (Hkeeps : keepsBrowser (search env kw numPages)).
  { unfold search.
    apply keepsBrowser_bind; [apply keepsBrowser_set_results | intros _].
    apply keepsBrowser_bind; [apply keepsBrowser_set_page | intros _].
    apply keepsBrowser_bind; [| intros _; apply keepsBrowser_get].
    apply keepsBrowser_try_finally.
    - apply keepsBrowser_try_catch; [| intros e; apply keepsBrowser_log].
      apply keepsBrowser_ensure.
      apply keepsBrowser_bind; [apply keepsBrowser_setupPage | intros p].
      apply keepsBrowser_bind; [apply keepsBrowser_set_page | intros _].
      apply keepsBrowser_searchPages.
    - apply keepsBrowser_bind; [apply keepsBrowser_get | intros p].
      destruct p; [apply keepsBrowser_call; on_page | apply keepsBrowser_ret]. }
  destruct (Hkeeps s Hs) as (Hb & evs & Hcalls & Hevs).
  split; [exact Hb |]. exists evs. split; [exact Hcalls |].
  rewrite Forall_forall in Hevs.
  split; intros Hin; destruct (Hevs _ Hin) as [H1 H2]; congruence.
Qed.

Lemma search_reuses_browser_witness :
  browser running <> None /\
  browser (snd (search (failsAt 1) "laravel" 3 running)) = browser running /\
  exists evs,
    calls (snd (search (failsAt 1) "laravel" 3 running))
    = (calls running ++ evs)%list /\
    ~ In Launch evs /\ ~ In BrowserClose evs.
Proof.
  assert (H : browser running <> None) by discriminate.
  split; [exact H |].
  exact (search_reuses_browser (failsAt 1) "laravel" 3 running H).
Defined.

(** When the browser cannot be launched, [search] returns the empty list
    like a search without results; it opens and closes no page, and the
    searcher still has no browser, so that the next call launches again. *)
Theorem search_launch_failure env kw numPages s e :
  browser s = None ->
  launch env = Thrown e ->
  search env kw numPages s
  = (Returned [],
     {| browser := None;
        results := [];
        page := None;
        logged := logged s ++ [(Error, ("Search failed: " ++ message e)%string)];
        calls := calls s ++ [Launch] |}).
Proof.
  intros Hb Hlaunch. destruct s as [b r p l c]. cbn [browser] in Hb. subst b.
  unfold search. run_searcher. rewrite Hlaunch. reflexivity.
Qed.

Lemma search_launch_failure_witness :
  search cannotLaunch "laravel" 5 idle
  = (Returned [],
     {| browser := None; results := []; page := None;
        logged := [(Error, "Search failed: Failed to launch the browser process!")];
        calls := [Launch] |}).
Proof.
  exact (search_launch_failure cannotLaunch "laravel" 5 idle
                               (Err "Failed to launch the browser process!")
                               eq_refl eq_refl).
Defined.

(** When the page was created but preparing it fails ([setUserAgent] or
    [evaluateOnNewDocument] rejects), [search] returns the empty list and
    never closes that page: the local [page] was not assigned yet. *)
Theorem search_setup_failure_leaves_page_open env kw numPages s e :
  browser s <> None ->
  newPage env = Returned tt ->
  setUserAgent env = Thrown e \/
  (setUserAgent env = Returned tt /\ evaluateOnNewDocument env = Thrown e) ->
  exists s',
    search env kw numPages s = (Returned [], s') /\
    page s' = None /\
    In NewPage (skipn (length (calls s)) (calls s')) /\
    ~ In PageClose (skipn (length (calls s)) (calls s')).
Proof.
  intros Hb Hnew Hfail. destruct s as [[[] |] r p l c];
    [clear Hb | now contradiction Hb].
  unfold search. run_searcher. rewrite Hnew. cbv beta iota.
  destruct Hfail as [Hua | [Hua Hdoc]].
  - rewrite Hua. cbv beta iota. eexists. split; [reflexivity |].
    cbn [page calls]. split; [reflexivity |].
    rewrite <- !app_assoc, skipn_app, skipn_all, Nat.sub_diag. cbn.
    split; [now left | intros [H | [H | []]]; discriminate].
  - rewrite Hua. cbv beta iota. rewrite Hdoc. cbv beta iota.
    eexists. split; [reflexivity |].
    cbn [page calls]. split; [reflexivity |].
    rewrite <- !app_assoc, skipn_app, skipn_all, Nat.sub_diag. cbn.
    split; [now left | intros [H | [H | [H | []]]]; discriminate].
Qed.

Lemma search_setup_failure_leaves_page_open_witness :
  exists s',
    search cannotPrepare "laravel" 5 running = (Returned [], s') /\
    page s' = None /\
    In NewPage (calls s') /\ ~ In PageClose (calls s').
Proof.
  destruct (search_setup_failure_leaves_page_open
              cannotPrepare "laravel" 5 running (Err "Target closed"))
    as (s' & Hrun & Hpage & Hin & Hnot).
  - discriminate.
  - reflexivity.
  - left. reflexivity.
  - exists s'. repeat split; assumption.
Defined.

End SearcherMore.

(* ------------------------------------------------------------------------- *)
(** ** The batch driver *)

Section MainFacts.
Import App Main.

Lemma bind_run {S A B : Type} (c : M S A) (k : A -> M S B) (s s1 : S) (a : A) :
  c s = (Returned a, s1) -> bind c k s = k a s1.
Proof. intros H. unfold bind. now rewrite H. Qed.

Lemma try_catch_bind_run {S A B : Type} (c : M S A) (k : A -> M S B)
      (h : exn -> M S B) (s s1 : S) (a : A) :
  c s = (Returned a, s1) -> try_catch (bind c k) h s = try_catch (k a) h s1.
Proof. intros H. unfold try_catch, bind. now rewrite H. Qed.

Lemma onAnalyzer_run {A : Type} (m : M Analyzer.World A) (a : World)
      (r : outcome A) (w : Analyzer.World) :
  m (analyzerWorld a) = (r, w) ->
  onAnalyzer m a
  = (r, {| analyzerWorld := w; searcherState := searcherState a;
           stderr := stderr a; serverLog := serverLog a;
           timers := timers a |}).
Proof. intros H. unfold onAnalyzer. now rewrite H. Qed.

Lemma onSearcher_run {A : Type} (m : M Searcher.State A) (a : World)
      (r : outcome A) (s : Searcher.State) :
  m (searcherState a) = (r, s) ->
  onSearcher m a
  = (r, {| analyzerWorld := analyzerWorld a; searcherState := s;
           stderr := stderr a; serverLog := serverLog a;
           timers := timers a |}).
Proof. intros H. unfold onSearcher. now rewrite H. Qed.

Lemma close_returns env s :
  Searcher.browserClose env = Returned tt ->
  exists s', Searcher.close env s = (Returned tt, s') /\
             Searcher.browser s' = None.
Proof.
  intros Hclose. destruct s as [[b |] r p l c];
    unfold Searcher.close, bind, Searcher.get, Searcher.call,
           Searcher.set_browser;
    cbn [Searcher.browser Searcher.results Searcher.page Searcher.logged
         Searcher.calls].
  - rewrite Hclose. eexists. split; reflexivity.
  - eexists. split; reflexivity.
Qed.

(** Whatever happens to the searches, the saves and the reports, [main]
    ends by closing the browser: when [browser.close] succeeds, [main]
    returns and the searcher is left without a browser. *)
Theorem main_always_closes_browser env a :
  Searcher.browserClose (closeEnv env) = Returned tt ->
  exists a',
    main env a = (Returned tt, a') /\
    Searcher.browser (searcherState a') = None.
Proof.
  intros Hclose. unfold main.
  rewrite (bind_run _ _ a _ tt (onSearcher_run newSearcher a _ _ eq_refl)).
  unfold try_finally.
  match goal with
  | |- context [try_catch ?b ?h ?s0] =>
      destruct (try_catch_returns b h s0) as [a1 H1]
  end.
  { intros e s0. eexists. reflexivity. }
  rewrite H1.
  destruct (close_returns (closeEnv env) (searcherState a1) Hclose)
    as (s' & Hrun & Hb).
  rewrite (onSearcher_run _ a1 _ _ Hrun).
  eexists. split; [reflexivity | exact Hb].
Qed.

Lemma main_always_closes_browser_witness :
  exists a',
    main (smoothRun sampleResults) (processWith []) = (Returned tt, a') /\
    Searcher.browser (searcherState a') = None.
Proof.
  exact (main_always_closes_browser (smoothRun sampleResults) (processWith [])
                                    eq_refl).
Defined.

Lemma saveResults_appends env kw results w rs :
  Analyzer.resultsFile w = Analyzer.Rankings rs ->
  Analyzer.writeFile_fault env = None ->
  exists r entry,
    Analyzer.saveResults env kw results w = (Returned tt, saved w rs r entry) /\
    keyword r = kw /\ timestamp r = Analyzer.now env.
Proof.
  intros Hfile Hwrite.
  destruct (findRanking_spec results 0) as [(i & m & Hfirst & _) | [Hnone _]].
  - eexists; eexists.
    split; [exact (saveResults_found env kw results w rs i m Hfile Hwrite Hfirst) |].
    split; reflexivity.
  - eexists; eexists.
    split; [exact (saveResults_absent env kw results w rs Hfile Hwrite Hnone) |].
    split; reflexivity.
Qed.

Lemma initialize_accessible ienv w :
  Analyzer.mkdir ienv = Returned tt ->
  Analyzer.access ienv = Returned tt ->
  Analyzer.initialize ienv w = (Returned tt, w).
Proof.
  intros Hmkdir Haccess.
  unfold Analyzer.initialize, try_catch, bind, await.
  rewrite Hmkdir, Haccess. reflexivity.
Qed.

Lemma keepsStoreApp_bind {A B : Type} (c : M World A) (k : A -> M World B) :
  keepsStoreApp c -> (forall x, keepsStoreApp (k x)) -> keepsStoreApp (bind c k).
Proof.
  intros Hc Hk a. unfold bind. specialize (Hc a).
  destruct (c a) as [[x | e] a1]; cbn [snd] in *.
  - rewrite (Hk x a1). exact Hc.
  - exact Hc.
Qed.

Lemma keepsStoreApp_try_catch {A : Type} (body : M World A)
      (handler : exn -> M World A) :
  keepsStoreApp body -> (forall e, keepsStoreApp (handler e)) ->
  keepsStoreApp (try_catch body handler).
Proof.
  intros Hb Hh a. unfold try_catch. specialize (Hb a).
  destruct (body a) as [[x | e] a1]; cbn [snd] in *.
  - exact Hb.
  - rewrite (Hh e a1). exact Hb.
Qed.

Lemma keepsStoreApp_try_finally {A : Type} (body : M World A)
      (final : M World unit) :
  keepsStoreApp body -> keepsStoreApp final ->
  keepsStoreApp (try_finally body final).
Proof.
  intros Hb Hf a. unfold try_finally. specialize (Hb a).
  destruct (body a) as [r a1]; cbn [snd] in *. specialize (Hf a1).
  destruct (final a1) as [[[] | e] a2]; cbn [snd] in *; congruence.
Qed.

Lemma keepsStoreApp_onAnalyzer {A : Type} (m : M Analyzer.World A) :
  keepsStore m -> keepsStoreApp (onAnalyzer m).
Proof.
  intros Hm a. unfold onAnalyzer. specialize (Hm (analyzerWorld a)).
  destruct (m (analyzerWorld a)) as [r w]. exact Hm.
Qed.

Lemma keepsStoreApp_onSearcher {A : Type} (m : M Searcher.State A) :
  keepsStoreApp (onSearcher m).
Proof.
  intros a. unfold onSearcher.
  destruct (m (searcherState a)) as [r s]. reflexivity.
Qed.

Lemma keepsStoreApp_console_error label error :
  keepsStoreApp (console_error label error).
Proof. intros a. reflexivity. Qed.

(** The loop over the keywords, when every search returns and every save
    goes through: one record per keyword, in the order of the keywords. *)
Lemma searchAll_appends env (keywords : list string) :
  forall i a rs,
    Analyzer.resultsFile (analyzerWorld a) = Analyzer.Rankings rs ->
    (forall j, Searcher.pageClose (searchEnv env j) = Returned tt) ->
    (forall j, Analyzer.writeFile_fault (saveEnv env j) = None) ->
    exists a' new,
      searchAll env i keywords a = (Returned tt, a') /\
      Analyzer.resultsFile (analyzerWorld a') = Analyzer.Rankings (rs ++ new) /\
      map keyword new = keywords.
Proof.
  induction keywords as [|kw rest IH]; intros i a rs Hfile Hclose Hwrite.
  - exists a, []. simpl. rewrite app_nil_r. repeat split. exact Hfile.
  - destruct a as [w s err slog tm]. cbn [analyzerWorld] in Hfile.
    cbn [searchAll].
    (* console.log *)
    erewrite bind_run; [| unfold App.console_log;
                          apply onAnalyzer_run; reflexivity].
    cbn [analyzerWorld searcherState stderr serverLog timers].
    (* search *)
    destruct (search_returns (searchEnv env i) kw 5 s (Hclose i))
      as (s1 & Hsearch).
    erewrite bind_run; [| apply onSearcher_run; exact Hsearch].
    cbn [analyzerWorld searcherState stderr serverLog timers].
    (* saveResults *)
    set (w0 := {| Analyzer.resultsFile := Analyzer.resultsFile w;
                  Analyzer.logged := Analyzer.logged w;
                  Analyzer.console := (Analyzer.console w
                                       ++ [("Searching for: " ++ kw)%string])%list;
                  Analyzer.csvFiles := Analyzer.csvFiles w |}).
    destruct (saveResults_appends (saveEnv env i) kw (Searcher.results s1)
                                  w0 rs Hfile (Hwrite i))
      as (r & entry & Hsave & Hkw & _).
    erewrite bind_run; [| apply onAnalyzer_run; exact Hsave].
    cbn [analyzerWorld searcherState stderr serverLog timers].
    (* the timer *)
    erewrite bind_run; [| reflexivity].
    cbn [analyzerWorld searcherState stderr serverLog timers].
    (* the other keywords *)
    match goal with
    | |- context [searchAll env (S i) rest ?a1] =>
        destruct (IH (S i) a1 (rs ++ [r])%list eq_refl Hclose Hwrite)
          as (a' & new & Hrun & Hfile' & Hnew)
    end.
    exists a', (r :: new). split; [exact Hrun |].
    split.
    + rewrite Hfile', <- app_assoc. reflexivity.
    + simpl. now rewrite Hkw, Hnew.
Qed.

(** A run of [main] on a readable store in which every search returns and
    every save goes through appends exactly one record per keyword of
    [KEYWORDS], in their order, whatever the searches found and however the
    two reports and the closing of the browser end. *)
Theorem main_appends_one_record_per_keyword env a rs :
  Analyzer.resultsFile (analyzerWorld a) = Analyzer.Rankings rs ->
  Analyzer.mkdir (initEnv env) = Returned tt ->
  Analyzer.access (initEnv env) = Returned tt ->
  (forall j, Searcher.pageClose (searchEnv env j) = Returned tt) ->
  (forall j, Analyzer.writeFile_fault (saveEnv env j) = None) ->
  exists new,
    Analyzer.resultsFile (analyzerWorld (snd (main env a)))
    = Analyzer.Rankings (rs ++ new) /\
    map keyword new = KEYWORDS /\
    length new = 5%nat.
Proof.
  intros Hfile Hmkdir Haccess Hclose Hwrite.
  destruct a as [w s err slog tm]. cbn [analyzerWorld] in Hfile.
  unfold main.
  erewrite bind_run; [| apply onSearcher_run; reflexivity].
  cbn [analyzerWorld searcherState stderr serverLog timers].
  unfold try_finally at 1.
  erewrite try_catch_bind_run;
    [| apply onAnalyzer_run; apply initialize_accessible; assumption].
  cbn [analyzerWorld searcherState stderr serverLog timers].
  match goal with
  | |- context [try_catch _ _ ?a0] =>
      destruct (searchAll_appends env KEYWORDS 0 a0 rs Hfile Hclose Hwrite)
        as (a1 & new & Hrun & Hfile1 & Hnew)
  end.
  erewrite try_catch_bind_run; [| exact Hrun].
  exists new. split; [| split; [exact Hnew |]].
  - rewrite <- Hfile1.
    match goal with
    | |- context [try_catch ?b ?h a1] =>
        assert (Hrest : keepsStoreApp (try_finally (try_catch b h)
                          (onSearcher (Searcher.close (closeEnv env)))))
    end.
    { apply keepsStoreApp_try_finally; [| apply keepsStoreApp_onSearcher].
      apply keepsStoreApp_try_catch;
        [| intros e; apply keepsStoreApp_console_error].
      apply keepsStoreApp_bind;
        [apply keepsStoreApp_onAnalyzer, keepsStore_console_log | intros _].
      apply keepsStoreApp_bind;
        [apply keepsStoreApp_onAnalyzer, keepsStore_generateReport | intros _].
      apply keepsStoreApp_bind;
        [apply keepsStoreApp_onAnalyzer, keepsStore_console_log | intros _].
      apply keepsStoreApp_onAnalyzer, keepsStore_generateReport. }
    exact (Hrest a1).
  - rewrite <- (length_map keyword), Hnew. reflexivity.
Qed.

Lemma main_appends_one_record_per_keyword_witness :
  exists new,
    Analyzer.resultsFile
      (analyzerWorld (snd (main (smoothRun sampleResults)
                                (processWith [notFoundRecord "php" 1]))))
    = Analyzer.Rankings ([notFoundRecord "php" 1] ++ new) /\
    map keyword new = KEYWORDS.
Proof.
  destruct (main_appends_one_record_per_keyword
              (smoothRun sampleResults) (processWith [notFoundRecord "php" 1])
              [notFoundRecord "php" 1] eq_refl eq_refl eq_refl
              (fun _ => eq_refl) (fun _ => eq_refl))
    as (new & Hfile & Hkw & _).
  exists new. split; [exact Hfile | exact Hkw].
Defined.

Lemma bind_throw {S A B : Type} (c : M S A) (k : A -> M S B) (s s1 : S)
      (e : exn) :
  c s = (Thrown e, s1) -> bind c k s = (Thrown e, s1).
Proof. intros H. unfold bind. now rewrite H. Qed.

Lemma try_catch_throw {S A : Type} (body : M S A) (h : exn -> M S A)
      (s s1 : S) (e : exn) :
  body s = (Thrown e, s1) -> try_catch body h s = h e s1.
Proof. intros H. unfold try_catch. now rewrite H. Qed.

Lemma saveResults_corrupt env kw results w why :
  Analyzer.resultsFile w = Analyzer.Corrupt why ->
  Analyzer.saveResults env kw results w
  = (Thrown (Err why),
     addLog w (Error, ("Failed to save results: " ++ why)%string)).
Proof.
  intros Hfile. destruct w as [file logs out files].
  cbn [Analyzer.resultsFile] in Hfile. subst file.
  unfold Analyzer.saveResults.
  destruct (Analyzer.findRanking 0 results) as [ranking matched].
  reflexivity.
Qed.

(** When the results file cannot be parsed, [main] makes the first search
    only: its save throws, the remaining keywords and both reports are
    skipped (no timer is started, nothing but the first 'Searching for'
    line is printed), the error goes to the error output, the store is left
    as it was, and the browser is still closed. *)
Theorem main_stops_at_first_failed_save env a why :
  Analyzer.resultsFile (analyzerWorld a) = Analyzer.Corrupt why ->
  Analyzer.mkdir (initEnv env) = Returned tt ->
  Analyzer.access (initEnv env) = Returned tt ->
  Searcher.pageClose (searchEnv env 0) = Returned tt ->
  Searcher.browserClose (closeEnv env) = Returned tt ->
  exists a',
    main env a = (Returned tt, a') /\
    stderr a' = (stderr a ++ [("Error:", Err why)])%list /\
    timers a' = timers a /\
    Analyzer.console (analyzerWorld a')
    = (Analyzer.console (analyzerWorld a)
       ++ ["Searching for: Laravel development company"])%list /\
    Analyzer.resultsFile (analyzerWorld a') = Analyzer.Corrupt why /\
    Searcher.browser (searcherState a') = None.
Proof.
  intros Hfile Hmkdir Haccess Hpage Hclose.
  destruct a as [w s err slog tm]. cbn [analyzerWorld] in Hfile.
  unfold main.
  erewrite bind_run; [| apply onSearcher_run; reflexivity].
  cbn [analyzerWorld searcherState stderr serverLog timers].
  unfold try_finally.
  erewrite try_catch_bind_run;
    [| apply onAnalyzer_run; apply initialize_accessible; assumption].
  cbn [analyzerWorld searcherState stderr serverLog timers].
  match goal with
  | |- context [try_catch _ _ ?a0] =>
      assert (Hloop : exists s1,
                 searchAll env 0 KEYWORDS a0
                 = (Thrown (Err why),
                    {| analyzerWorld :=
                         addLog (addConsole
                                   w ["Searching for: Laravel development company"])
                                (Error, ("Failed to save results: " ++ why)%string);
                       searcherState := s1;
                       stderr := err; serverLog := slog; timers := tm |}))
  end.
  { cbn [KEYWORDS searchAll].
    erewrite bind_run; [| unfold App.console_log;
                          apply onAnalyzer_run; reflexivity].
    cbn [analyzerWorld searcherState stderr serverLog timers].
    match goal with
    | |- context [bind (onSearcher (Searcher.search ?e ?k ?n)) _ ?a0] =>
        destruct (search_returns e k n (searcherState a0) Hpage)
          as (s1 & Hsearch)
    end.
    cbn [searcherState] in Hsearch.
    erewrite bind_run; [| apply onSearcher_run; exact Hsearch].
    cbn [analyzerWorld searcherState stderr serverLog timers].
    exists s1. apply bind_throw.
    apply onAnalyzer_run. apply saveResults_corrupt. exact Hfile. }
  destruct Hloop as [s1 Hloop].
  erewrite try_catch_throw; [| apply bind_throw; exact Hloop].
  unfold console_error.
  cbn [analyzerWorld searcherState stderr serverLog timers].
  destruct (close_returns (closeEnv env) s1 Hclose) as (s' & Hrun & Hb).
  erewrite onSearcher_run; [| exact Hrun].
  cbn [analyzerWorld searcherState stderr serverLog timers].
  eexists. split; [reflexivity |].
  cbn [analyzerWorld searcherState stderr serverLog timers addLog addConsole
       Analyzer.console Analyzer.resultsFile].
  repeat split; [exact Hfile | exact Hb].
Qed.

Lemma main_stops_at_first_failed_save_witness :
  exists a',
    main (smoothRun sampleResults)
         (processWithCorruptStore "Unexpected end of JSON input")
    = (Returned tt, a') /\
    stderr a' = [("Error:", Err "Unexpected end of JSON input")] /\
    timers a' = [].
Proof.
  destruct (main_stops_at_first_failed_save
              (smoothRun sampleResults)
              (processWithCorruptStore "Unexpected end of JSON input")
              "Unexpected end of JSON input"
              eq_refl eq_refl eq_refl eq_refl eq_refl)
    as (a' & Hrun & Herr & Htm & _).
  exists a'. repeat split; assumption.
Defined.

End MainFacts.

(* ------------------------------------------------------------------------- *)
(** ** The web server *)

Section ServerFacts.
Import App Server.

Lemma sort_ext {A : Type} (cmp cmp' : A -> A -> Z) (l : list A) :
  (forall a b, cmp a b = cmp' a b) -> Js.sort cmp l = Js.sort cmp' l.
Proof.
  intros Hext. induction l as [|x l IH]; [reflexivity |].
  cbn [Js.sort fold_right]. fold (Js.sort cmp l). fold (Js.sort cmp' l).
  rewrite IH. generalize (Js.sort cmp' l) as m.
  induction m as [|y m IHm]; simpl; [reflexivity |].
  now rewrite Hext, IHm.
Qed.



(** A request without keyword, or with the empty keyword, is turned down
    before anything is searched or stored: the error view is rendered with
    'Keyword is required' and only the error output changes. *)
Theorem postSearch_requires_keyword env keyword a :
  truthy_string keyword = false ->
  postSearch env keyword a
  = (Returned (RenderError "Keyword is required"),
     {| analyzerWorld := analyzerWorld a;
        searcherState := searcherState a;
        stderr := stderr a ++ [("Search error:", Err "Keyword is required")];
        serverLog := serverLog a;
        timers := timers a |}).
Proof.
  intros Hkw. unfold postSearch, try_catch. rewrite Hkw. reflexivity.
Qed.

Lemma postSearch_requires_keyword_witness :
  postSearch (smoothRequest sampleResults 1000) (Some "") (processWith [])
  = (Returned (RenderError "Keyword is required"),
     {| analyzerWorld := storeOf [];
        searcherState := idle;
        stderr := [("Search error:", Err "Keyword is required")];
        serverLog := [];
        timers := [] |}).
Proof.
  exact (postSearch_requires_keyword (smoothRequest sampleResults 1000)
                                     (Some "") (processWith []) eq_refl).
Defined.



Lemma groupEntry_groupStep acc x :
  Js.inherited (keyword x) = false ->
  groupEntry acc x = Analyzer.groupStep acc x.
Proof.
  intros Hx. unfold groupEntry, Analyzer.groupStep, Js.get. rewrite Hx.
  now destruct (Js.own acc (keyword x)).
Qed.

Lemma reduce_groupEntry_ordinary l :
  forall acc,
    ordinaryKeywords l ->
    Analyzer.reduce groupEntry l acc = Analyzer.reduce Analyzer.groupStep l acc.
Proof.
  induction l as [|x l IH]; intros acc Hord; [reflexivity |].
  simpl. rewrite groupEntry_groupStep by (apply Hord; now left).
  destruct (Analyzer.groupStep acc x); [| reflexivity].
  apply IH. intros r Hr. apply Hord. now right.
Qed.

Lemma sort_asc_sorted (l : list RankingRecord) : ascending (Js.sort byDateAsc l).
Proof.
  rewrite (sort_ext byDateAsc
                    (fun a b => (fun r => - timestamp r) b
                                - (fun r => - timestamp r) a))
    by (intros a b; unfold byDateAsc; lia).
  assert (H := sort_sorted (fun r => - timestamp r) l).
  unfold ascending.
  induction H as [|x m Hm IH Hall]; constructor; [exact IH |].
  eapply Forall_impl; [| exact Hall]. intros y Hy. simpl in Hy. lia.
Qed.

(** For a store without keywords named like inherited properties,
    [GET /api/rankings] answers with one entry per keyword of the store,
    holding exactly that keyword's records, oldest first; the store and the
    logs are left as they were. *)
Theorem getApiRankings_groups a rs :
  Analyzer.resultsFile (analyzerWorld a) = Analyzer.Rankings rs ->
  ordinaryKeywords rs ->
  exists keywordData,
    getApiRankings a = (Returned (Json keywordData), a) /\
    forall kw,
      match recordsOf kw rs with
      | [] => Js.own keywordData kw = None
      | _ =>
          exists data,
            Js.own keywordData kw = Some data /\
            data = Js.sort byDateAsc (recordsOf kw rs) /\
            Permutation data (recordsOf kw rs) /\
            ascending data
      end.
Proof.
  intros Hfile Hord.
  destruct a as [w s err slog tm]. cbn [analyzerWorld] in Hfile.
  destruct (reduce_groupStep_ordinary rs [] Hord) as [groups Hby].
  assert (Hgrouped := byKeyword_grouped rs groups Hby).
  destruct Hgrouped as [_ Hown].
  exists (map (fun kv => (fst kv, Js.sort byDateAsc (snd kv))) groups).
  split.
  - unfold getApiRankings.
    erewrite try_catch_bind_run;
      [| unfold readRankings; apply onAnalyzer_run; cbn [analyzerWorld];
         unfold Analyzer.readRankings; rewrite Hfile; reflexivity].
    rewrite reduce_groupEntry_ordinary by exact Hord.
    rewrite Hby. destruct w as [file logs out files]. reflexivity.
  - intros kw. rewrite own_map_values, Hown.
    destruct (recordsOf kw rs) as [|r0 rest] eqn:Hrec; [reflexivity |].
    eexists. split; [reflexivity |].
    split; [reflexivity | split; [apply sort_perm | apply sort_asc_sorted]].
Qed.

Lemma getApiRankings_groups_witness :
  exists keywordData data,
    getApiRankings (processWith sampleStore)
    = (Returned (Json keywordData), processWith sampleStore) /\
    Js.own keywordData "laravel" = Some data /\
    ascending data /\
    Permutation data [rankedRecord "laravel" 9 1000;
                      rankedRecord "laravel" 2 2000;
                      rankedRecord "laravel" 7 3000].
Proof.
  destruct (getApiRankings_groups (processWith sampleStore) sampleStore
                                  eq_refl sampleStore_ordinary)
    as (keywordData & Hrun & Hkw).
  specialize (Hkw "laravel").
  change (recordsOf "laravel" sampleStore)
    with [rankedRecord "laravel" 9 1000; rankedRecord "laravel" 2 2000;
          rankedRecord "laravel" 7 3000] in Hkw.
  cbv beta iota in Hkw.
  destruct Hkw as (data & Hown & _ & Hperm & Hasc).
  exists keywordData, data. repeat split; assumption.
Defined.

End ServerFacts.
